(** * Shell-profile provisioning of [Z_AI_API_KEY] (src/core/shell-env.ts)

    A shallow embedding of the TypeScript module that writes the
    [Z_AI_API_KEY] block into a shell profile, and the properties of its
    quoted-value parser, assignment scanner, block codec and orchestrator.

    JavaScript strings are sequences of UTF-16 code units; they are
    modelled as [list N], one [N] per code unit, so that [length], [slice],
    [indexOf] and the [trim] family count and cut exactly as the engine
    does. *)

From stdpp Require Import base numbers list strings gmap.

Open Scope Z_scope.

(** ** JavaScript string primitives used by the module *)

Module JS.

Abbreviation jsstring := (list N).

(** An ASCII literal as a sequence of code units. *)
Definition lit (s : string) : jsstring :=
  (fun a => Ascii.N_of_ascii a) <$> String.list_ascii_of_string s.

Definition NL : N := 10%N.
Definition DQUOTE : N := 34%N.
Definition SQUOTE : N := 39%N.
Definition BACKSLASH : N := 92%N.

(** ECMAScript WhiteSpace and LineTerminator code points: what
    [String.prototype.trim], [trimStart] and [trimEnd] strip. *)
Definition isWhiteSpace (c : N) : bool :=
  match c with
  | 9 | 10 | 11 | 12 | 13 | 32 | 160 | 5760
  | 8232 | 8233 | 8239 | 8287 | 12288 | 65279 => true
  | _ => (8192 <=? c) && (c <=? 8202)
  end%N.

Fixpoint trimStart (s : jsstring) : jsstring :=
  match s with
  | [] => []
  | c :: r => if isWhiteSpace c then trimStart r else s
  end.

Fixpoint trimEnd (s : jsstring) : jsstring :=
  match s with
  | [] => []
  | c :: r =>
      match trimEnd r with
      | [] => if isWhiteSpace c then [] else [c]
      | t => c :: t
      end
  end.

Definition trim (s : jsstring) : jsstring := trimEnd (trimStart s).

(** [s.startsWith(p)] *)
Fixpoint startsWith (s p : jsstring) {struct p} : bool :=
  match p, s with
  | [], _ => true
  | _ :: _, [] => false
  | a :: p', b :: s' => (a =? b)%N && startsWith s' p'
  end.

(** [s.endsWith(p)] *)
Definition endsWith (s p : jsstring) : bool :=
  (length p <=? length s)%nat &&
  bool_decide (drop (length s - length p)%nat s = p).

(** Least position at which [p] occurs in [s]. *)
Fixpoint search (s p : jsstring) : option nat :=
  if startsWith s p then Some 0%nat
  else match s with
       | [] => None
       | _ :: r => S <$> search r p
       end.

(** [s.indexOf(p, from)]: the start position is clamped to [0, length];
    the answer is [-1] when there is no occurrence. *)
Definition indexOf (s p : jsstring) (from : Z) : Z :=
  let k := Z.to_nat (Z.min (Z.max from 0) (Z.of_nat (length s))) in
  match search (drop k s) p with
  | Some i => Z.of_nat (k + i)
  | None => -1
  end.

(** [s.includes(p)] *)
Definition includes (s p : jsstring) : bool :=
  negb (indexOf s p 0 =? -1).

(** Relative index of [slice]: negative counts from the end, and both
    ends are clamped into the string. *)
Definition clampIndex (len i : Z) : Z :=
  if i <? 0 then Z.max (len + i) 0 else Z.min i len.

(** [s.slice(a, b)] *)
Definition slice (s : jsstring) (a b : Z) : jsstring :=
  let len := Z.of_nat (length s) in
  let from := clampIndex len a in
  let to := clampIndex len b in
  take (Z.to_nat (to - from)) (drop (Z.to_nat from) s).

(** [s.slice(a)] *)
Definition sliceFrom (s : jsstring) (a : Z) : jsstring :=
  slice s a (Z.of_nat (length s)).

(** [s.split(sep)] for a separator of one code unit (the module only
    splits on a newline). *)
Fixpoint split (sep : N) (s : jsstring) : list jsstring :=
  match s with
  | [] => [[]]
  | c :: r =>
      if (c =? sep)%N then [] :: split sep r
      else match split sep r with
           | l :: ls => (c :: l) :: ls
           | [] => [[c]]
           end
  end.

(** [s.replaceAll(pat, rep)] for a non-empty pattern: occurrences are
    replaced from left to right without overlap. [skip] counts the code
    units of a matched occurrence that are still to be consumed. *)
Fixpoint replaceAllFrom (skip : nat) (s pat rep : jsstring) : jsstring :=
  match s with
  | [] => []
  | c :: r =>
      match skip with
      | S k => replaceAllFrom k r pat rep
      | O =>
          if startsWith s pat
          then rep ++ replaceAllFrom (length pat - 1) r pat rep
          else c :: replaceAllFrom 0 r pat rep
      end
  end.

Definition replaceAll (s pat rep : jsstring) : jsstring :=
  replaceAllFrom 0 s pat rep.

(** JavaScript truthiness of a string: the empty string is falsy. *)
Definition truthy (s : jsstring) : bool :=
  match s with [] => false | _ :: _ => true end.

End JS.

Import JS.

(** ** Data model *)

Inductive ShellEnvStatus := updated | skipped | failed.

Record ShellEnvResult := mkResult {
  status : ShellEnvStatus;
  message : option jsstring;
  path : option jsstring
}.

Inductive ShellType := zsh | bash | powershell | powershell_core | unknown.

#[global] Instance ShellType_eq_dec : EqDecision ShellType.
Proof. solve_decision. Defined.

#[global] Instance ShellEnvStatus_eq_dec : EqDecision ShellEnvStatus.
Proof. solve_decision. Defined.

Definition SETTINGS_FILE : jsstring := lit "settings.json".
Definition BLOCK_START_UNIX : jsstring := lit "# claude-sneakpeek: Z.ai env start".
Definition BLOCK_END_UNIX : jsstring := lit "# claude-sneakpeek: Z.ai env end".
Definition BLOCK_START_POWERSHELL : jsstring := lit "# claude-sneakpeek: Z.ai env start".
Definition BLOCK_END_POWERSHELL : jsstring := lit "# claude-sneakpeek: Z.ai env end".
Definition PLACEHOLDER_KEY : jsstring := lit "<API_KEY>".

(** The name of the variable, as the string literals of the source spell it. *)
Definition Z_AI_API_KEY : jsstring := lit "Z_AI_API_KEY".

(** ** Pure functions of the module *)

(** [normalizeApiKey]: [None] is JavaScript's [null]/[undefined]. *)
Definition normalizeApiKey (value : option jsstring) : option jsstring :=
  match value with
  | None => None
  | Some v =>
      if negb (truthy v) then None
      else
        let trimmed := trim v in
        if negb (truthy trimmed) || bool_decide (trimmed = PLACEHOLDER_KEY)
        then None
        else Some trimmed
  end.

Definition isPowerShell (shell : ShellType) : bool :=
  match shell with
  | powershell | powershell_core => true
  | _ => false
  end.

(** [renderBlock] *)
Definition renderBlock (apiKey : jsstring) (shell : ShellType) : jsstring :=
  if isPowerShell shell then
    BLOCK_START_POWERSHELL ++ [NL] ++ lit "$env:Z_AI_API_KEY=" ++ [DQUOTE]
      ++ apiKey ++ [DQUOTE] ++ [NL] ++ BLOCK_END_POWERSHELL ++ [NL]
  else
    BLOCK_START_UNIX ++ [NL] ++ lit "export Z_AI_API_KEY=" ++ [DQUOTE]
      ++ apiKey ++ [DQUOTE] ++ [NL] ++ BLOCK_END_UNIX ++ [NL].

(** [getBlockMarkers]: the pair (start, end). *)
Definition getBlockMarkers (shell : ShellType) : jsstring * jsstring :=
  if isPowerShell shell
  then (BLOCK_START_POWERSHELL, BLOCK_END_POWERSHELL)
  else (BLOCK_START_UNIX, BLOCK_END_UNIX).

(** [upsertBlock] *)
Definition upsertBlock (content block : jsstring) (shell : ShellType) : jsstring :=
  let '(start, end_) := getBlockMarkers shell in
  if includes content start && includes content end_ then
    let startIndex := indexOf content start 0 in
    let endIndex := indexOf content end_ startIndex in
    let before := trimEnd (slice content 0 startIndex) in
    let after := trimStart (sliceFrom content (endIndex + Z.of_nat (length end_))) in
    trimEnd (before ++ [NL; NL] ++ block ++ [NL] ++ after) ++ [NL]
  else
    trimEnd (trimEnd content ++ [NL; NL] ++ block) ++ [NL].

(** [parseQuotedValue] *)
Definition parseQuotedValue (value : jsstring) : option jsstring :=
  let value := trim value in
  if (length value <? 2)%nat then None
  else
    let firstChar := value !! 0%nat in
    let lastChar := value !! (length value - 1)%nat in
    if (bool_decide (firstChar = Some DQUOTE) && bool_decide (lastChar = Some DQUOTE))
       || (bool_decide (firstChar = Some SQUOTE) && bool_decide (lastChar = Some SQUOTE))
    then
      let inner := slice value 1 (-1) in
      match firstChar with
      | Some escapeChar =>
          Some (replaceAll inner [BACKSLASH; escapeChar] [escapeChar])
      | None => None
      end
    else Some value.

(** The right-hand side of a candidate line: [value && normalizeApiKey(value)]. *)
Definition effectiveValue (rawValue : jsstring) : bool :=
  match parseQuotedValue rawValue with
  | Some value => truthy value && bool_decide (is_Some (normalizeApiKey (Some value)))
  | None => false
  end.

(** One iteration of the loop of [hasZaiKeyInProfile]: [true] where the
    loop body reaches [return true], [false] where it continues. *)
Definition lineSetsKey (shell : ShellType) (line : jsstring) : bool :=
  let trimmed := trim line in
  if negb (truthy trimmed) || startsWith trimmed (lit "#") then false
  else if isPowerShell shell then
    let envStripped :=
      if startsWith trimmed (lit "$env:") then sliceFrom trimmed 5 else trimmed in
    if negb (startsWith envStripped Z_AI_API_KEY) then false
    else
      let equalsIndex := indexOf envStripped (lit "=") 0 in
      if equalsIndex =? -1 then false
      else effectiveValue (trim (sliceFrom envStripped (equalsIndex + 1)))
  else
    let exportStripped :=
      if startsWith trimmed (lit "export ") then trim (sliceFrom trimmed 7) else trimmed in
    if negb (startsWith exportStripped Z_AI_API_KEY) then false
    else
      let equalsIndex := indexOf exportStripped (lit "=") 0 in
      if equalsIndex =? -1 then false
      else effectiveValue (trim (sliceFrom exportStripped (equalsIndex + 1))).

Fixpoint scanLines (shell : ShellType) (lines : list jsstring) : bool :=
  match lines with
  | [] => false
  | line :: rest => if lineSetsKey shell line then true else scanLines shell rest
  end.

(** [hasZaiKeyInProfile] *)
Definition hasZaiKeyInProfile (content : jsstring) (shell : ShellType) : bool :=
  scanLines shell (split NL content).

(** ** The host: process, file system and Node's [path] *)

(** Outcome of a call that may throw: [Throw] carries the message of the
    exception. *)
Inductive outcome (A : Type) : Type :=
  | Return (a : A)
  | Throw (err : jsstring).
Arguments Return {A} a.
Arguments Throw {A} err.

(** What the module reads of the process: the platform flag exported by
    [./paths.js] as [isWindows], [os.homedir()] and the environment
    variables it consults ([None] is an unset variable). *)
Record Process := mkProcess {
  isWindows : bool;
  homedir : jsstring;
  env_SHELL : option jsstring;
  env_PSModulePath : option jsstring;
  env_PWSH : option jsstring;
  env_PROFILE : option jsstring;
  env_Z_AI_API_KEY : option jsstring
}.

(** The file system: regular files with their decoded content,
    directories, and for each call that can fail the error it raises on a
    given path ([None]: no fault injected). *)
Record FileSystem := mkFS {
  files : gmap (list N) (list N);
  dirs : gset (list N);
  readFault : jsstring -> option jsstring;
  writeFault : jsstring -> option jsstring;
  mkdirFault : jsstring -> option jsstring
}.

Definition ENOENT : jsstring := lit "ENOENT: no such file or directory".
Definition EISDIR : jsstring := lit "EISDIR: illegal operation on a directory".
Definition EEXIST : jsstring := lit "EEXIST: file already exists".

(** [fs.existsSync] *)
Definition existsSync (fs : FileSystem) (p : jsstring) : bool :=
  bool_decide (is_Some (files fs !! p)) || bool_decide (p ∈ dirs fs).

(** [fs.readFileSync(p, 'utf8')] *)
Definition readFileSync (fs : FileSystem) (p : jsstring) : outcome jsstring :=
  match readFault fs p with
  | Some e => Throw e
  | None =>
      match files fs !! p with
      | Some c => Return c
      | None => if bool_decide (p ∈ dirs fs) then Throw EISDIR else Throw ENOENT
      end
  end.

(** [fs.writeFileSync(p, data)]: a whole-file overwrite. *)
Definition writeFileSync (fs : FileSystem) (p data : jsstring)
  : outcome unit * FileSystem :=
  match writeFault fs p with
  | Some e => (Throw e, fs)
  | None =>
      if bool_decide (p ∈ dirs fs) then (Throw EISDIR, fs)
      else (Return tt,
            mkFS (<[p := data]> (files fs)) (dirs fs)
                 (readFault fs) (writeFault fs) (mkdirFault fs))
  end.

(** Node's [path] module, whose implementation depends on the platform,
    is an interface of the host. *)
Class NodePath := {
  basename : jsstring -> jsstring;
  dirname : jsstring -> jsstring;
  join : jsstring -> jsstring -> jsstring;
  basename_empty : basename [] = []
}.

(** The value of [settings.env.ANTHROPIC_API_KEY] is typed
    [string | number | undefined]; an absent key is [undefined]. *)
Inductive EnvValue := EnvString (s : jsstring) | EnvNumber.

Record SettingsFile := mkSettings {
  env : option (gmap (list N) EnvValue)
}.

Definition ANTHROPIC_API_KEY : jsstring := lit "ANTHROPIC_API_KEY".

(** The argument of [ensureZaiShellEnv]. *)
Record Options := mkOptions {
  apiKey : option jsstring;
  configDir : jsstring;
  profilePath : option jsstring
}.

Section Engine.

Context {P : NodePath}.

(** [readJson] of [./fs.js]: the parsed document ([None] for a nullish
    result), or the exception it raises. *)
Variable readJson : FileSystem -> jsstring -> outcome (option SettingsFile).

(** The directory and its ancestors, nearest first: what a recursive
    [mkdir] creates. *)
Fixpoint ancestors (fuel : nat) (d : jsstring) : list jsstring :=
  match fuel with
  | O => [d]
  | S k => if bool_decide (dirname d = d) then [d] else d :: ancestors k (dirname d)
  end.

(** [fs.mkdirSync(d, { recursive: true })] *)
Definition mkdirSync (fs : FileSystem) (d : jsstring) : outcome unit * FileSystem :=
  match mkdirFault fs d with
  | Some e => (Throw e, fs)
  | None =>
      if bool_decide (is_Some (files fs !! d)) then (Throw EEXIST, fs)
      else (Return tt,
            mkFS (files fs) (list_to_set (ancestors (length d) d) ∪ dirs fs)
                 (readFault fs) (writeFault fs) (mkdirFault fs))
  end.

Definition truthyOpt (o : option jsstring) : bool :=
  match o with Some s => truthy s | None => false end.

(** [detectShell] *)
Definition detectShell (proc : Process) : ShellType :=
  if isWindows proc then
    if truthyOpt (env_PSModulePath proc) then
      if truthyOpt (env_PWSH proc) then powershell_core else powershell
    else
      match env_SHELL proc with
      | Some sh => if truthy sh && includes sh (lit "bash") then bash else unknown
      | None => unknown
      end
  else
    let shell := match env_SHELL proc with
                 | Some sh => if truthy sh then sh else []
                 | None => []
                 end in
    let name := basename shell in
    if bool_decide (name = lit "zsh") then zsh
    else if bool_decide (name = lit "bash") then bash
    else unknown.

(** [resolveShellProfile]: [None] is [null]. Both branches of the search
    for a PowerShell profile return the default path, whether or not the
    file exists. *)
Definition resolveShellProfile (proc : Process) (fs : FileSystem) : option jsstring :=
  let home := homedir proc in
  let shell := detectShell proc in
  if isPowerShell shell then
    let documentsPath := join home (lit "Documents") in
    let psPath := join documentsPath (lit "WindowsPowerShell") in
    let ps7Path := join documentsPath (lit "PowerShell") in
    let default :=
      if bool_decide (shell = powershell_core)
      then join ps7Path (lit "Microsoft.PowerShell_profile.ps1")
      else join psPath (lit "Microsoft.PowerShell_profile.ps1") in
    match env_PROFILE proc with
    | Some profileEnv =>
        if truthy profileEnv && existsSync fs profileEnv then Some profileEnv
        else Some default
    | None => Some default
    end
  else if bool_decide (shell = bash) then
    let bashrc := join home (lit ".bashrc") in
    if existsSync fs bashrc then Some bashrc
    else Some (join home (lit ".bash_profile"))
  else if bool_decide (shell = zsh) then Some (join home (lit ".zshrc"))
  else None.

(** [detectShellFromPath] *)
Definition detectShellFromPath (profilePath : jsstring) : ShellType :=
  let basename := basename profilePath in
  if endsWith basename (lit ".ps1") then powershell
  else if bool_decide (basename = lit ".zshrc") then zsh
  else if bool_decide (basename = lit ".bashrc")
          || bool_decide (basename = lit ".bash_profile") then bash
  else unknown.

(** [settings?.env?.ANTHROPIC_API_KEY] *)
Definition settingsKey (settings : option SettingsFile) : option EnvValue :=
  match settings with
  | Some s => match env s with
              | Some e => e !! ANTHROPIC_API_KEY
              | None => None
              end
  | None => None
  end.

(** [readSettingsApiKey] *)
Definition readSettingsApiKey (fs : FileSystem) (configDir : jsstring)
  : outcome (option jsstring) :=
  let settingsPath := join configDir SETTINGS_FILE in
  if negb (existsSync fs settingsPath) then Return None
  else
    match readJson fs settingsPath with
    | Throw e => Throw e
    | Return settings =>
        match settingsKey settings with
        | Some (EnvString key) => Return (normalizeApiKey (Some key))
        | _ => Return None
        end
    end.

Definition MSG_MISSING : jsstring := lit "Z_AI_API_KEY not set (missing API key)".
Definition MSG_ENV : jsstring := lit "Z_AI_API_KEY already set in environment".
Definition MSG_UNSUPPORTED_WINDOWS : jsstring :=
  lit "Unsupported shell; please use PowerShell or Git Bash. Set Z_AI_API_KEY manually in settings.json.".
Definition MSG_UNSUPPORTED : jsstring := lit "Unsupported shell; set Z_AI_API_KEY manually".
Definition MSG_PROFILE : jsstring := lit "Z_AI_API_KEY already set in shell profile".
Definition MSG_UP_TO_DATE : jsstring := lit "Shell profile already up to date".

(** [normalizeApiKey(opts.apiKey) || readSettingsApiKey(opts.configDir)]:
    the settings are read only when the explicit value is unusable. *)
Definition resolveApiKey (fs : FileSystem) (opts : Options) : outcome (option jsstring) :=
  match normalizeApiKey (apiKey opts) with
  | Some k => Return (Some k)
  | None => readSettingsApiKey fs (configDir opts)
  end.

(** [opts.profilePath ?? resolveShellProfile()] *)
Definition chosenProfile (proc : Process) (fs : FileSystem) (opts : Options)
  : option jsstring :=
  match profilePath opts with
  | Some p => Some p
  | None => resolveShellProfile proc fs
  end.

(** [opts.profilePath ? detectShellFromPath(opts.profilePath) : detectShell()] *)
Definition chosenShell (proc : Process) (opts : Options) : ShellType :=
  match profilePath opts with
  | Some p => if truthy p then detectShellFromPath p else detectShell proc
  | None => detectShell proc
  end.

(** The file system after the best-effort creation of the directory of
    the profile: an exception of [mkdirSync] is caught and ignored. *)
Definition afterMkdir (fs : FileSystem) (profile : jsstring) : FileSystem :=
  let profileDir := dirname profile in
  snd (mkdirSync fs profileDir).

(** [fs.existsSync(profile) ? fs.readFileSync(profile, 'utf8') : ''] *)
Definition readProfile (fs : FileSystem) (profile : jsstring) : outcome jsstring :=
  if existsSync fs profile then readFileSync fs profile else Return [].

(** The steps after the profile and the dialect are known: best-effort
    directory creation, read, scan, render, upsert, write. *)
Definition provision (fs : FileSystem) (apiKey profile : jsstring) (shell : ShellType)
  : outcome ShellEnvResult * FileSystem :=
  let fs1 := afterMkdir fs profile in
  match readProfile fs1 profile with
  | Throw e => (Throw e, fs1)
  | Return existing =>
      if hasZaiKeyInProfile existing shell then
        (Return (mkResult skipped (Some MSG_PROFILE) (Some profile)), fs1)
      else
        let block := renderBlock apiKey shell in
        let next := upsertBlock existing block shell in
        if bool_decide (next = existing) then
          (Return (mkResult skipped (Some MSG_UP_TO_DATE) (Some profile)), fs1)
        else
          match writeFileSync fs1 profile next with
          | (Throw e, fs2) => (Throw e, fs2)
          | (Return _, fs2) =>
              let reloadMessage :=
                if isPowerShell shell then lit "Run: . $PROFILE"
                else lit "Run: source " ++ profile in
              (Return (mkResult updated (Some reloadMessage) (Some profile)), fs2)
          end
  end.

(** [ensureZaiShellEnv] *)
Definition ensureZaiShellEnv (proc : Process) (fs : FileSystem) (opts : Options)
  : outcome ShellEnvResult * FileSystem :=
  match resolveApiKey fs opts with
  | Throw e => (Throw e, fs)
  | Return None => (Return (mkResult skipped (Some MSG_MISSING) None), fs)
  | Return (Some apiKey) =>
      match normalizeApiKey (env_Z_AI_API_KEY proc) with
      | Some _ => (Return (mkResult skipped (Some MSG_ENV) None), fs)
      | None =>
          match chosenProfile proc fs opts with
          | None =>
              (Return (mkResult failed
                         (Some (if isWindows proc then MSG_UNSUPPORTED_WINDOWS
                                else MSG_UNSUPPORTED)) None), fs)
          | Some profile =>
              if negb (truthy profile) then
                (Return (mkResult failed
                           (Some (if isWindows proc then MSG_UNSUPPORTED_WINDOWS
                                  else MSG_UNSUPPORTED)) None), fs)
              else provision fs apiKey profile (chosenShell proc opts)
          end
      end
  end.

End Engine.

(** ** A host: Node's POSIX [path] *)

Module Posix.

Definition SLASH : N := 47%N.

Definition isSlash (c : N) : bool := (c =? SLASH)%N.

Fixpoint dropWhile (f : N -> bool) (s : jsstring) : jsstring :=
  match s with
  | [] => []
  | c :: r => if f c then dropWhile f r else s
  end.

Fixpoint takeWhile (f : N -> bool) (s : jsstring) : jsstring :=
  match s with
  | [] => []
  | c :: r => if f c then c :: takeWhile f r else []
  end.

Definition notSlash (c : N) : bool := negb (isSlash c).

(** [path.posix.basename(p)]: trailing slashes are ignored, and the
    base name runs back to the slash before it. *)
Definition basename (p : jsstring) : jsstring :=
  rev (takeWhile notSlash (dropWhile isSlash (rev p))).

(** [path.posix.dirname(p)]: the scan runs from the end down to index 1;
    [r], read backwards, starts at the slash that closes the directory
    part. *)
Definition dirname (p : jsstring) : jsstring :=
  match p with
  | [] => lit "."
  | c0 :: rest =>
      let hasRoot := isSlash c0 in
      let r := dropWhile notSlash (dropWhile isSlash (rev rest)) in
      match r with
      | [] => if hasRoot then lit "/" else lit "."
      | _ :: more =>
          if hasRoot && negb (truthy more) then lit "//" else c0 :: rev more
      end
  end.

(** One segment of [normalizeString], on the stack of the segments kept
    so far (innermost first). *)
Definition pushSegment (allowAboveRoot : bool) (stack : list jsstring) (seg : jsstring)
  : list jsstring :=
  if bool_decide (seg = []) || bool_decide (seg = lit ".") then stack
  else if bool_decide (seg = lit "..") then
    match stack with
    | top :: below =>
        if bool_decide (top = lit "..")
        then (if allowAboveRoot then seg :: stack else stack)
        else below
    | [] => if allowAboveRoot then [seg] else []
    end
  else seg :: stack.

Fixpoint joinSegments (segs : list jsstring) : jsstring :=
  match segs with
  | [] => []
  | [x] => x
  | x :: rest => x ++ SLASH :: joinSegments rest
  end.

(** [path.posix.normalize(p)] *)
Definition normalize (p : jsstring) : jsstring :=
  match p with
  | [] => lit "."
  | c0 :: _ =>
      let isAbsolute := isSlash c0 in
      let trailingSeparator := bool_decide (last p = Some SLASH) in
      let segs := rev (foldl (pushSegment (negb isAbsolute)) [] (split SLASH p)) in
      let body := joinSegments segs in
      if negb (truthy body) then
        if isAbsolute then lit "/" else if trailingSeparator then lit "./" else lit "."
      else
        (if isAbsolute then [SLASH] else []) ++ body
          ++ (if trailingSeparator then [SLASH] else [])
  end.

(** [path.posix.join(a, b)] *)
Definition join (a b : jsstring) : jsstring :=
  match a, b with
  | [], [] => lit "."
  | [], _ => normalize b
  | _, [] => normalize a
  | _, _ => normalize (a ++ SLASH :: b)
  end.

End Posix.

#[global] Instance posix : NodePath := {|
  basename := Posix.basename;
  dirname := Posix.dirname;
  join := Posix.join;
  basename_empty := eq_refl
|}.

(** The settings reader of the examples: every settings file parses to a
    document whose only entry is [env.ANTHROPIC_API_KEY = key]. *)
Definition readJsonWith (key : jsstring)
  : FileSystem -> jsstring -> outcome (option SettingsFile) :=
  fun _ _ => Return (Some (mkSettings (Some {[ ANTHROPIC_API_KEY := EnvString key ]}))).

(** A POSIX process whose login shell is zsh and whose environment does
    not set [Z_AI_API_KEY]. *)
Definition zshProcess : Process :=
  mkProcess false (lit "/home/u") (Some (lit "/bin/zsh")) None None None None.

(** A file system that holds [files] and no directory, without faults. *)
Definition plainFS (fileList : list (jsstring * jsstring)) : FileSystem :=
  mkFS (list_to_map fileList) ∅ (fun _ => None) (fun _ => None) (fun _ => None).

(** Closed decidable goals (membership, disequality of literals) are
    settled by evaluating their decision procedure. *)
Ltac by_evaluation := apply (bool_decide_unpack _); vm_compute; exact I.

(** ** Facts about the string primitives *)

Section StringFacts.

Implicit Types (s a b t w p : jsstring) (c : N).

Lemma trimEnd_shape s :
  trimEnd s = [] \/ exists b c, trimEnd s = b ++ [c] /\ isWhiteSpace c = false.
Proof.
  induction s as [|x r IH]; simpl; [by left|].
  destruct IH as [-> | (b & c & -> & Hc)].
  - destruct (isWhiteSpace x) eqn:Hx; [by left|].
    right. by exists [], x.
  - right. exists (x :: b), c. split; [|done].
    by destruct b.
Qed.

Lemma trimEnd_app_last a c :
  isWhiteSpace c = false -> trimEnd (a ++ [c]) = a ++ [c].
Proof.
  intros Hc. induction a as [|x a IH]; simpl; [by rewrite Hc|].
  rewrite IH. by destruct a.
Qed.

Lemma trimEnd_app_keep a b :
  trimEnd b <> [] -> trimEnd (a ++ b) = a ++ trimEnd b.
Proof.
  intros Hb. induction a as [|x a IH]; simpl; [done|].
  rewrite IH. destruct (a ++ trimEnd b) eqn:E; [|done].
  apply app_eq_nil in E as [_ E]. done.
Qed.

Lemma trimEnd_app_drop a w :
  trimEnd w = [] -> trimEnd (a ++ w) = trimEnd a.
Proof.
  intros Hw. induction a as [|x a IH]; simpl; [done|]. by rewrite IH.
Qed.

Lemma trimEnd_idem s : trimEnd (trimEnd s) = trimEnd s.
Proof.
  destruct (trimEnd_shape s) as [-> | (b & c & -> & Hc)]; [done|].
  by apply trimEnd_app_last.
Qed.

Lemma trimEnd_split s : exists w, s = trimEnd s ++ w /\ trimEnd w = [].
Proof.
  induction s as [|x r (w & Hr & Hw)]; simpl; [by exists []|].
  destruct (trimEnd r) as [|y t] eqn:E.
  - simpl in Hr. subst w. destruct (isWhiteSpace x) eqn:Hx.
    + exists (x :: r). split; [done|]. simpl. by rewrite E, Hx.
    + exists r. by split.
  - exists w. split; [|done]. simpl. by rewrite Hr at 1.
Qed.

Lemma trimStart_shape s :
  trimStart s = [] \/ exists c t, trimStart s = c :: t /\ isWhiteSpace c = false.
Proof.
  induction s as [|x r IH]; simpl; [by left|].
  destruct (isWhiteSpace x) eqn:Hx; [done|]. right. by exists x, r.
Qed.

Lemma trimStart_head c t : isWhiteSpace c = false -> trimStart (c :: t) = c :: t.
Proof. intros Hc. simpl. by rewrite Hc. Qed.

Lemma trimStart_length s : (length (trimStart s) <= length s)%nat.
Proof.
  induction s as [|x s IH]; simpl; [lia|].
  destruct (isWhiteSpace x); simpl; lia.
Qed.

Lemma trimStart_idem s : trimStart (trimStart s) = trimStart s.
Proof.
  destruct (trimStart_shape s) as [-> | (c & t & -> & Hc)]; [done|].
  by apply trimStart_head.
Qed.

Lemma trimStart_fixed_head c t :
  trimStart (c :: t) = c :: t -> isWhiteSpace c = false.
Proof.
  simpl. destruct (isWhiteSpace c); [|done]. intros H.
  pose proof (trimStart_length t) as Hl. rewrite H in Hl. simpl in Hl. lia.
Qed.

(** Trimming the end of a string that starts with a visible code unit
    keeps its start. *)
Lemma trimStart_trimEnd s :
  trimStart s = s -> trimStart (trimEnd s) = trimEnd s.
Proof.
  intros Hs. destruct s as [|h t]; [done|].
  pose proof (trimStart_fixed_head h t Hs) as Hh.
  simpl. destruct (trimEnd t); [by rewrite Hh; simpl; rewrite Hh|].
  by apply trimStart_head.
Qed.

Lemma startsWith_length s p : startsWith s p = true -> (length p <= length s)%nat.
Proof.
  revert s. induction p as [|x p IH]; intros [|y s]; simpl; intros H.
  all: try done; try lia.
  apply andb_prop in H as [_ H]. apply IH in H. lia.
Qed.

Lemma startsWith_app s t p : startsWith s p = true -> startsWith (s ++ t) p = true.
Proof.
  revert s. induction p as [|x p IH]; intros [|y s]; simpl; try done.
  intros [-> H]%andb_prop. simpl. by apply IH.
Qed.

Lemma startsWith_app_long s t p :
  (length p <= length s)%nat -> startsWith (s ++ t) p = startsWith s p.
Proof.
  revert s. induction p as [|x p IH]; intros [|y s]; simpl; intros Hl;
    try done; try lia.
  rewrite IH; [done|lia].
Qed.

Lemma startsWith_self_app p t : startsWith (p ++ t) p = true.
Proof. induction p as [|x p IH]; simpl; [done|]. by rewrite N.eqb_refl, IH. Qed.

(** A pattern without the code unit [c] cannot reach across a [c]. *)
Lemma startsWith_sep a b c p :
  c ∉ p -> startsWith (a ++ c :: b) p = startsWith a p.
Proof.
  revert a. induction p as [|x p IH]; intros a Hc; [by destruct a|].
  apply not_elem_of_cons in Hc as [Hxc Hp].
  destruct a as [|y a]; simpl.
  - destruct (N.eqb_spec x c); [congruence|done].
  - by rewrite IH.
Qed.

Lemma search_unfold s p :
  search s p =
  if startsWith s p then Some 0%nat
  else match s with [] => None | _ :: r => S <$> search r p end.
Proof. by destruct s. Qed.

Lemma search_bound s p i : search s p = Some i -> (i + length p <= length s)%nat.
Proof.
  revert i. induction s as [|x r IH]; intros i; rewrite search_unfold.
  - destruct (startsWith [] p) eqn:E; [|done].
    intros [= <-]. apply startsWith_length in E. simpl in *. lia.
  - destruct (startsWith (x :: r) p) eqn:E.
    + intros [= <-]. apply startsWith_length in E. simpl in *. lia.
    + destruct (search r p) as [j|] eqn:Hj; [|done].
      intros [= <-]. specialize (IH j eq_refl). simpl. lia.
Qed.

Lemma search_app_l s t p i : search s p = Some i -> search (s ++ t) p = Some i.
Proof.
  revert i. induction s as [|x r IH]; intros i; rewrite search_unfold.
  - destruct (startsWith [] p) eqn:E; [|done]. intros [= <-].
    rewrite search_unfold. by rewrite (startsWith_app [] t p E).
  - destruct (startsWith (x :: r) p) eqn:E.
    + intros [= <-]. rewrite search_unfold.
      by rewrite (startsWith_app (x :: r) t p E).
    + destruct (search r p) as [j|] eqn:Hj; [|done]. intros [= <-].
      pose proof (search_bound _ _ _ Hj) as Hb.
      rewrite search_unfold, startsWith_app_long, E by (simpl; lia).
      simpl. by rewrite (IH j eq_refl).
Qed.

Lemma search_app_none s t p : search (s ++ t) p = None -> search s p = None.
Proof.
  intros H. destruct (search s p) as [i|] eqn:E; [|done].
  apply (search_app_l s t) in E. congruence.
Qed.

Lemma search_prefix s p : startsWith s p = true -> search s p = Some 0%nat.
Proof. intros H. by rewrite search_unfold, H. Qed.

(** The first occurrence of a pattern around a code unit it does not
    contain lies wholly on one side of it. *)
Lemma search_sep a b c p :
  p <> [] -> c ∉ p ->
  search (a ++ c :: b) p =
  match search a p with
  | Some i => Some i
  | None => (fun i => (length a + 1 + i)%nat) <$> search b p
  end.
Proof.
  intros Hp Hc. induction a as [|x a IH].
  - simpl app. rewrite (search_unfold (c :: b)), (search_unfold []).
    pose proof (startsWith_sep [] b c p Hc) as H0. simpl app in H0. rewrite H0.
    destruct p; [done|]. simpl. by destruct (search b (n :: p)).
  - change ((x :: a) ++ c :: b) with (x :: (a ++ c :: b)).
    rewrite (search_unfold (x :: _)), (search_unfold (x :: a)).
    change (x :: (a ++ c :: b)) with ((x :: a) ++ c :: b).
    rewrite (startsWith_sep (x :: a) b c p Hc).
    destruct (startsWith (x :: a) p); [done|].
    rewrite IH. destruct (search a p); simpl; [done|].
    by destruct (search b p).
Qed.

Lemma search_cons_sep b c p :
  p <> [] -> c ∉ p -> search (c :: b) p = S <$> search b p.
Proof.
  intros Hp Hc. pose proof (search_sep [] b c p Hp Hc) as H.
  simpl app in H. rewrite H. destruct p; [done|]. simpl.
  by destruct (search b (n :: p)).
Qed.

Lemma search_take_first s p i :
  p <> [] -> search s p = Some i -> search (take i s) p = None.
Proof.
  intros Hp Hs. destruct (search (take i s) p) as [j|] eqn:E; [|done].
  pose proof (search_bound _ _ _ E) as Hb.
  apply (search_app_l _ (drop i s)) in E. rewrite take_drop in E.
  assert (j = i) by congruence. subst j.
  rewrite length_take in Hb. destruct p; [done|]. simpl in Hb. lia.
Qed.

Lemma indexOf_0 s p :
  indexOf s p 0 = match search s p with Some i => Z.of_nat i | None => -1 end.
Proof.
  unfold indexOf. replace (Z.to_nat _) with 0%nat by lia. by rewrite drop_0.
Qed.

Lemma indexOf_nat s p (k : nat) :
  (k <= length s)%nat ->
  indexOf s p (Z.of_nat k) =
  match search (drop k s) p with Some i => Z.of_nat (k + i) | None => -1 end.
Proof.
  intros Hk. unfold indexOf.
  by replace (Z.to_nat _) with k by lia.
Qed.

Lemma includes_search s p :
  includes s p = match search s p with Some _ => true | None => false end.
Proof.
  unfold includes. rewrite indexOf_0.
  destruct (search s p) as [i|]; [|done].
  destruct (Z.eqb_spec (Z.of_nat i) (-1)); [lia|done].
Qed.

Lemma slice_0_nat s (n : nat) :
  (n <= length s)%nat -> slice s 0 (Z.of_nat n) = take n s.
Proof.
  intros Hn. unfold slice, clampIndex.
  destruct (Z.ltb_spec 0 0); [lia|].
  destruct (Z.ltb_spec (Z.of_nat n) 0); [lia|].
  replace (Z.to_nat (Z.min 0 _)) with 0%nat by lia.
  rewrite drop_0. f_equal. lia.
Qed.

Lemma sliceFrom_nat s (n : nat) : sliceFrom s (Z.of_nat n) = drop n s.
Proof.
  unfold sliceFrom, slice, clampIndex.
  destruct (Z.ltb_spec (Z.of_nat n) 0); [lia|].
  destruct (Z.ltb_spec (Z.of_nat (length s)) 0); [lia|].
  destruct (decide (n <= length s)%nat).
  - replace (Z.to_nat (Z.min (Z.of_nat n) _)) with n by lia.
    apply take_ge. rewrite length_drop. lia.
  - replace (Z.to_nat (Z.min (Z.of_nat n) _)) with (length s) by lia.
    rewrite !drop_ge by lia. by rewrite take_nil.
Qed.

End StringFacts.

(** ** The block codec: shape of the result of [upsertBlock] *)

Section BlockCodec.

Implicit Types (s a b t w p u X T C k : jsstring) (c : N) (sh : ShellType).

(** Both dialect families use the same pair of markers. *)
Lemma getBlockMarkers_all sh :
  getBlockMarkers sh = (BLOCK_START_UNIX, BLOCK_END_UNIX).
Proof. by destruct sh. Qed.

Lemma NL_notin_START : NL ∉ BLOCK_START_UNIX.
Proof. by_evaluation. Qed.

Lemma NL_notin_END : NL ∉ BLOCK_END_UNIX.
Proof. by_evaluation. Qed.

Lemma DQUOTE_notin_END : DQUOTE ∉ BLOCK_END_UNIX.
Proof. by_evaluation. Qed.

(** A string that [trimEnd] leaves alone and that is not empty. *)
Definition solid s : Prop := trimEnd s = s /\ s <> [].

Lemma solid_END : solid BLOCK_END_UNIX.
Proof. split; [by vm_compute|done]. Qed.

Lemma solid_app a b : solid b -> solid (a ++ b).
Proof.
  intros [Hb Hn]. split.
  - rewrite trimEnd_app_keep; by rewrite Hb.
  - intros [_ ?]%app_eq_nil. done.
Qed.

Lemma trimEnd_solid_ws a pre w :
  solid a -> trimEnd w = [] -> trimEnd (pre ++ a ++ w) = pre ++ a.
Proof.
  intros [Ha Hn] Hw. rewrite (app_assoc pre a w), trimEnd_app_drop by done.
  rewrite trimEnd_app_keep; by rewrite Ha.
Qed.

(** The part of a rendered block before its final newline. *)
Definition blockBody k sh : jsstring :=
  BLOCK_START_UNIX ++ NL ::
    (if isPowerShell sh then lit "$env:Z_AI_API_KEY=" else lit "export Z_AI_API_KEY=")
    ++ DQUOTE :: k ++ DQUOTE :: NL :: BLOCK_END_UNIX.

Lemma renderBlock_body k sh : renderBlock k sh = blockBody k sh ++ [NL].
Proof.
  unfold renderBlock, blockBody.
  destruct (isPowerShell sh); rewrite <- !app_assoc; simpl app.
  - unfold BLOCK_START_POWERSHELL, BLOCK_END_POWERSHELL.
    rewrite <- !app_assoc. reflexivity.
  - rewrite <- !app_assoc. reflexivity.
Qed.

(** A block body the codec can find again: it opens with the start
    marker, and its only end marker is the one that closes it. *)
Definition markedBody (B0 : jsstring) : Prop :=
  startsWith B0 BLOCK_START_UNIX = true /\
  search B0 BLOCK_END_UNIX = Some (length B0 - length BLOCK_END_UNIX)%nat /\
  solid B0.

Lemma blockBody_solid k sh : solid (blockBody k sh).
Proof.
  unfold blockBody. set (pfx := if isPowerShell sh then _ else _). clearbody pfx.
  apply solid_app.
  change (solid ((NL :: pfx) ++ (DQUOTE :: k) ++ [DQUOTE; NL] ++ BLOCK_END_UNIX)).
  do 3 apply solid_app. apply solid_END.
Qed.

Lemma blockBody_marked k sh :
  search k BLOCK_END_UNIX = None -> markedBody (blockBody k sh).
Proof.
  intros Hk. unfold markedBody, blockBody. split; [apply startsWith_self_app|].
  split.
  - set (pfx := if isPowerShell sh then _ else _).
    assert (Hpfx : search pfx BLOCK_END_UNIX = None)
      by (subst pfx; destruct (isPowerShell sh); by vm_compute).
    rewrite (search_sep BLOCK_START_UNIX _ NL) by (done || apply NL_notin_END).
    replace (search BLOCK_START_UNIX BLOCK_END_UNIX) with (@None nat) by by vm_compute.
    rewrite (search_sep pfx _ DQUOTE) by (done || apply DQUOTE_notin_END).
    rewrite Hpfx.
    rewrite (search_sep k _ DQUOTE) by (done || apply DQUOTE_notin_END).
    rewrite Hk.
    rewrite (search_sep [] BLOCK_END_UNIX NL) by (done || apply NL_notin_END).
    replace (search [] BLOCK_END_UNIX) with (@None nat) by by vm_compute.
    rewrite (search_prefix BLOCK_END_UNIX BLOCK_END_UNIX) by by vm_compute.
    cbn [fmap option_fmap option_map]. f_equal.
    clearbody pfx.
    repeat (rewrite !length_app; cbn [length]). lia.
  - apply blockBody_solid.
Qed.

(** What follows the block in a result of [upsertBlock]: nothing, or a
    blank line and the trimmed rest of the profile. *)
Definition tailShape T : Prop :=
  T = [] \/ exists u, T = NL :: u ++ [NL] /\ solid u /\ trimStart u = u.

Lemma search_settled_start X B0 T :
  search X BLOCK_START_UNIX = None -> startsWith B0 BLOCK_START_UNIX = true ->
  search (X ++ NL :: NL :: B0 ++ NL :: T) BLOCK_START_UNIX = Some (length X + 2)%nat.
Proof.
  intros HX HB.
  rewrite (search_sep X _ NL), HX by (done || apply NL_notin_START).
  rewrite search_cons_sep by (done || apply NL_notin_START).
  rewrite (search_prefix (B0 ++ NL :: T)) by by apply startsWith_app.
  cbn [fmap option_fmap option_map length]. f_equal. lia.
Qed.

Lemma search_body_end B0 T i :
  search B0 BLOCK_END_UNIX = Some i ->
  search (B0 ++ NL :: T) BLOCK_END_UNIX = Some i.
Proof. intros H. by apply search_app_l. Qed.

(** A profile that already holds the block, in the layout [upsertBlock]
    produces, is a fixed point of [upsertBlock]. *)
Lemma upsertBlock_settled X B0 T sh :
  trimEnd X = X -> search X BLOCK_START_UNIX = None ->
  markedBody B0 -> tailShape T ->
  upsertBlock (X ++ NL :: NL :: B0 ++ NL :: T) (B0 ++ [NL]) sh
  = X ++ NL :: NL :: B0 ++ NL :: T.
Proof.
  intros HX HXs (Hst & Hend & Hsolid) HT.
  unfold upsertBlock. rewrite getBlockMarkers_all.
  set (R := X ++ NL :: NL :: B0 ++ NL :: T).
  pose proof (search_settled_start X B0 T HXs Hst) as HsS. fold R in HsS.
  pose proof (search_body_end B0 T _ Hend) as HsE.
  pose proof (search_bound _ _ _ Hend) as Hlen.
  assert (HRlen : length R = (length X + 2 + length B0 + 1 + length T)%nat).
  { subst R. repeat (rewrite !length_app; cbn [length]). lia. }
  assert (HinE : is_Some (search R BLOCK_END_UNIX)).
  { subst R. rewrite (search_sep X _ NL) by (done || apply NL_notin_END).
    destruct (search X BLOCK_END_UNIX); [by eexists|].
    rewrite search_cons_sep by (done || apply NL_notin_END).
    rewrite HsE. by eexists. }
  destruct HinE as [e He].
  rewrite !includes_search, HsS, He. cbn [andb].
  rewrite indexOf_0, HsS.
  assert (Hdrop : drop (length X + 2) R = B0 ++ NL :: T).
  { subst R. change (X ++ NL :: NL :: B0 ++ NL :: T)
      with (X ++ [NL; NL] ++ B0 ++ NL :: T).
    rewrite app_assoc. apply drop_app_length'. rewrite length_app. simpl. lia. }
  assert (Htake : take (length X + 2) R = X ++ [NL; NL]).
  { subst R. change (X ++ NL :: NL :: B0 ++ NL :: T)
      with (X ++ [NL; NL] ++ B0 ++ NL :: T).
    rewrite app_assoc. apply take_app_length'. rewrite length_app. simpl. lia. }
  rewrite indexOf_nat, Hdrop, HsE by lia.
  rewrite slice_0_nat, Htake by lia.
  rewrite (trimEnd_app_drop X [NL; NL]) by reflexivity. rewrite HX.
  replace (Z.of_nat (length X + 2 + (length B0 - length BLOCK_END_UNIX))
           + Z.of_nat (length BLOCK_END_UNIX))
    with (Z.of_nat (length X + 2 + length B0)) by lia.
  rewrite sliceFrom_nat.
  assert (Hdrop2 : drop (length X + 2 + length B0) R = NL :: T).
  { subst R. change (X ++ NL :: NL :: B0 ++ NL :: T)
      with (X ++ [NL; NL] ++ B0 ++ NL :: T).
    rewrite !app_assoc. apply drop_app_length'. rewrite !length_app. simpl. lia. }
  rewrite Hdrop2. change (trimStart (NL :: T)) with (trimStart T).
  subst R. destruct HT as [-> | (u & -> & Hu & Htu)].
  - simpl trimStart. rewrite <- !app_assoc, (app_assoc X [NL; NL]).
    rewrite (trimEnd_solid_ws B0 (X ++ [NL; NL]) ([NL] ++ [NL] ++ [])) by done.
    rewrite <- !app_assoc. reflexivity.
  - change (trimStart (NL :: u ++ [NL])) with (trimStart (u ++ [NL])).
    destruct u as [|h t]; [by destruct Hu|].
    pose proof (trimStart_fixed_head h t Htu) as Hh.
    change ((h :: t) ++ [NL]) with (h :: (t ++ [NL])).
    rewrite trimStart_head by done.
    rewrite (app_assoc X [NL; NL]), (app_assoc _ (B0 ++ [NL])), (app_assoc _ [NL]).
    rewrite (trimEnd_solid_ws (h :: t) _ [NL]) by done.
    rewrite <- !app_assoc. reflexivity.
Qed.

(** First application, append path: one of the two markers is missing. *)
Lemma upsertBlock_append C B0 sh :
  includes C BLOCK_START_UNIX && includes C BLOCK_END_UNIX = false ->
  solid B0 ->
  upsertBlock C (B0 ++ [NL]) sh = trimEnd C ++ NL :: NL :: B0 ++ [NL].
Proof.
  intros Hinc HB. unfold upsertBlock. rewrite getBlockMarkers_all, Hinc.
  rewrite (app_assoc (trimEnd C) [NL; NL]).
  rewrite (trimEnd_solid_ws B0 _ [NL]) by done.
  rewrite <- !app_assoc. reflexivity.
Qed.

(** First application, replace path: both markers are present. *)
Lemma upsertBlock_replace C B0 sh :
  includes C BLOCK_START_UNIX = true -> includes C BLOCK_END_UNIX = true ->
  solid B0 ->
  exists X T,
    upsertBlock C (B0 ++ [NL]) sh = X ++ NL :: NL :: B0 ++ NL :: T /\
    trimEnd X = X /\ search X BLOCK_START_UNIX = None /\ tailShape T.
Proof.
  intros HS HE HB. unfold upsertBlock. rewrite getBlockMarkers_all, HS, HE.
  cbn [andb]. rewrite includes_search in HS.
  destruct (search C BLOCK_START_UNIX) as [s0|] eqn:Hs0; [|done].
  pose proof (search_bound _ _ _ Hs0) as Hb.
  rewrite indexOf_0, Hs0, slice_0_nat by lia.
  set (A := trimStart (sliceFrom C _)).
  assert (HA : trimStart A = A) by apply trimStart_idem.
  clearbody A.
  exists (trimEnd (take s0 C)).
  destruct (trimEnd A) as [|y u] eqn:HtA.
  - exists []. split; [|split; [apply trimEnd_idem|split; [|by left]]].
    + rewrite (app_assoc _ [NL; NL]), <- (app_assoc B0 [NL]).
      rewrite (trimEnd_solid_ws B0 _ ([NL] ++ [NL] ++ A)) by (done || by simpl; rewrite HtA).
      rewrite <- !app_assoc. reflexivity.
    + destruct (trimEnd_split (take s0 C)) as (w & Hw & _).
      apply (search_app_none _ w). rewrite <- Hw.
      by apply search_take_first.
  - exists (NL :: trimEnd A ++ [NL]).
    assert (HsA : solid (trimEnd A)).
    { split; [apply trimEnd_idem|by rewrite HtA]. }
    split; [|split; [apply trimEnd_idem|split]].
    + destruct (trimEnd_split A) as (w & Hw & Hww).
      rewrite Hw at 1.
      rewrite (app_assoc _ [NL; NL]), (app_assoc _ (B0 ++ [NL])), (app_assoc _ [NL]).
      rewrite (trimEnd_solid_ws (trimEnd A) _ w) by done.
      rewrite <- !app_assoc. reflexivity.
    + destruct (trimEnd_split (take s0 C)) as (w & Hw & _).
      apply (search_app_none _ w). rewrite <- Hw.
      by apply search_take_first.
    + right. exists (trimEnd A). split; [done|]. split; [done|].
      by apply trimStart_trimEnd.
Qed.

End BlockCodec.

(** ** Properties of the block codec *)

(** C9: whatever the content, the block and the dialect, the result of
    [upsertBlock] is not empty, its last code unit is a newline, and the
    code unit before that newline, if there is one, is not white space. *)
Theorem upsertBlock_single_trailing_newline
    (content block : jsstring) (shell : ShellType) :
  upsertBlock content block shell <> [] /\
  exists body,
    upsertBlock content block shell = body ++ [NL] /\
    (body = [] \/ exists b c, body = b ++ [c] /\ isWhiteSpace c = false).
Proof.
  unfold upsertBlock. destruct (getBlockMarkers shell) as [start end_].
  destruct (includes content start && includes content end_).
  - split; [by intros [_ ?]%app_eq_nil|].
    eexists. split; [reflexivity|]. apply trimEnd_shape.
  - split; [by intros [_ ?]%app_eq_nil|].
    eexists. split; [reflexivity|]. apply trimEnd_shape.
Qed.

(** C1, as amended: for a content that holds the end marker whenever it
    holds the start marker, and a block rendered from a key that does not
    hold the end marker, upserting twice equals upserting once, for every
    dialect of the rendering and of the upsert. Contents with the end
    marker alone, or with the end marker only before the start marker,
    are covered. *)
Theorem upsertBlock_idempotent
    (content apiKey : jsstring) (shell blockShell : ShellType) :
  (includes content (fst (getBlockMarkers shell)) = true ->
   includes content (snd (getBlockMarkers shell)) = true) ->
  includes apiKey (snd (getBlockMarkers shell)) = false ->
  let block := renderBlock apiKey blockShell in
  upsertBlock (upsertBlock content block shell) block shell
  = upsertBlock content block shell.
Proof.
  rewrite getBlockMarkers_all. cbn [fst snd]. intros Hcontent Hkey.
  rewrite renderBlock_body.
  rewrite includes_search in Hkey.
  destruct (search apiKey BLOCK_END_UNIX) eqn:Hk; [done|].
  pose proof (blockBody_marked apiKey blockShell Hk) as HB.
  set (B0 := blockBody apiKey blockShell) in *. clearbody B0.
  assert (Hsolid : solid B0) by apply HB.
  destruct (includes content BLOCK_START_UNIX) eqn:HS.
  - specialize (Hcontent eq_refl).
    destruct (upsertBlock_replace content B0 shell HS Hcontent Hsolid)
      as (X & T & -> & HX & HXs & HT).
    by apply upsertBlock_settled.
  - rewrite (upsertBlock_append content) by (done || by rewrite HS).
    rewrite includes_search in HS.
    destruct (search content BLOCK_START_UNIX) eqn:Hs; [done|].
    change (trimEnd content ++ NL :: NL :: B0 ++ [NL])
      with (trimEnd content ++ NL :: NL :: B0 ++ NL :: []).
    apply upsertBlock_settled; [apply trimEnd_idem| |done|by left].
    destruct (trimEnd_split content) as (w & Hw & _).
    apply (search_app_none _ w). by rewrite <- Hw.
Qed.

(** A profile that holds the end marker before the start marker, and no
    end marker after it. *)
Definition profile_end_then_start : jsstring :=
  BLOCK_END_UNIX ++ NL :: lit "PATH=/bin" ++ NL :: BLOCK_START_UNIX ++ [NL].

Lemma upsertBlock_idempotent_witness :
  let block := renderBlock (lit "abc123") powershell in
  upsertBlock (upsertBlock profile_end_then_start block zsh) block zsh
  = upsertBlock profile_end_then_start block zsh.
Proof.
  apply (upsertBlock_idempotent profile_end_then_start (lit "abc123") zsh powershell).
  - intros _. vm_compute. reflexivity.
  - vm_compute. reflexivity.
Defined.

(** A key that holds the end marker is cut at that marker by the second
    upsert: the hypothesis on the key cannot be dropped. *)
Example upsertBlock_not_idempotent_marker_in_key :
  let block := renderBlock BLOCK_END_UNIX zsh in
  upsertBlock (upsertBlock [] block zsh) block zsh <> upsertBlock [] block zsh.
Proof. intros block. by_evaluation. Qed.

(** C1, as stated, fails on a content that holds the start marker alone:
    the first upsert appends the block after it, and the second one cuts
    from the orphan marker to the end of the appended block. *)
Lemma upsertBlock_not_idempotent_orphan_start :
  let content := BLOCK_START_UNIX in
  let block := renderBlock (lit "abc123") zsh in
  includes content BLOCK_END_UNIX = false /\
  upsertBlock (upsertBlock content block zsh) block zsh
  <> upsertBlock content block zsh.
Proof.
  split; [by vm_compute|].
  by_evaluation.
Qed.

(** ** Properties of the quoted-value parser and the assignment scanner *)

Section Parser.

Implicit Types (s t v V : jsstring) (c q : N).

Lemma replaceAllFrom_no_head s c pat rep :
  c ∉ s -> replaceAllFrom 0 s (c :: pat) rep = s.
Proof.
  induction s as [|x s IH]; intros Hc; [done|].
  apply not_elem_of_cons in Hc as [Hcx Hs].
  cbn [replaceAllFrom startsWith].
  destruct (N.eqb_spec c x); [done|]. cbn [andb]. by rewrite IH.
Qed.

(** The token is wrapped in a pair of quotes [q]. *)
Definition wrappedIn q t : Prop := head t = Some q /\ last t = Some q.

Lemma wrapped_test q t :
  bool_decide (t !! 0%nat = Some q)
    && bool_decide (t !! (length t - 1)%nat = Some q) = true
  <-> wrappedIn q t.
Proof.
  unfold wrappedIn. rewrite head_lookup, last_lookup.
  replace (pred (length t)) with (length t - 1)%nat by lia.
  rewrite andb_true_iff, !bool_decide_eq_true. done.
Qed.

Lemma parseQuotedValue_quoted_no_backslash V q :
  (q = DQUOTE \/ q = SQUOTE) -> BACKSLASH ∉ V ->
  parseQuotedValue (q :: V ++ [q]) = Some V.
Proof.
  intros Hq HV. unfold parseQuotedValue.
  assert (Hws : isWhiteSpace q = false) by (by destruct Hq as [-> | ->]).
  assert (Htrim : trim (q :: V ++ [q]) = q :: V ++ [q]).
  { unfold trim. rewrite trimStart_head by done.
    by apply (trimEnd_app_last (q :: V)). }
  rewrite Htrim. cbn [length]. rewrite length_app. cbn [length].
  destruct (Nat.ltb_spec (S (length V + 1)) 2); [lia|].
  replace (S (length V + 1) - 1)%nat with (length (q :: V)) by (simpl; lia).
  change (q :: V ++ [q]) with ((q :: V) ++ [q]).
  rewrite (list_lookup_middle (q :: V) [] q (length (q :: V)) eq_refl).
  change ((q :: V) ++ [q]) with (q :: V ++ [q]).
  cbn [lookup list_lookup].
  assert (Hslice : slice (q :: V ++ [q]) 1 (-1) = V).
  { unfold slice, clampIndex. cbn [length]. rewrite length_app. cbn [length].
    destruct (Z.ltb_spec 1 0); [lia|]. destruct (Z.ltb_spec (-1) 0); [|lia].
    replace (Z.to_nat (Z.min 1 _)) with 1%nat by lia.
    cbn [drop]. rewrite drop_0, take_app_length'; [done|lia]. }
  rewrite Hslice.
  assert (Hne : Some SQUOTE <> Some DQUOTE) by (unfold SQUOTE, DQUOTE; discriminate).
  destruct Hq as [-> | ->].
  - rewrite (bool_decide_eq_true_2 (Some DQUOTE = Some DQUOTE)) by done.
    cbn [andb orb]. unfold replaceAll. by rewrite replaceAllFrom_no_head.
  - rewrite (bool_decide_eq_true_2 (Some SQUOTE = Some SQUOTE)) by done.
    rewrite (bool_decide_eq_false_2 (Some SQUOTE = Some DQUOTE)) by done.
    cbn [andb orb]. unfold replaceAll. by rewrite replaceAllFrom_no_head.
Qed.

End Parser.

(** C7: for every [V] without double quote and without backslash, parsing
    the double-quoted rendering of [V] gives [V] back. *)
Theorem parseQuotedValue_double_quoted_roundtrip (V : jsstring) :
  DQUOTE ∉ V -> BACKSLASH ∉ V ->
  parseQuotedValue ([DQUOTE] ++ V ++ [DQUOTE]) = Some V.
Proof.
  intros _ HV. apply (parseQuotedValue_quoted_no_backslash V DQUOTE); auto.
Qed.

Lemma parseQuotedValue_double_quoted_roundtrip_witness :
  parseQuotedValue ([DQUOTE] ++ lit " test-key 'x' " ++ [DQUOTE])
  = Some (lit " test-key 'x' ").
Proof.
  apply (parseQuotedValue_double_quoted_roundtrip (lit " test-key 'x' "));
    by_evaluation.
Defined.

(** C4, as amended: [parseQuotedValue] trims the token and returns null
    for every token that is shorter than 2 code units after trimming,
    bare words included; a token of 2 code units or more that is not
    wrapped in a pair of quotes is returned verbatim, trimmed. *)
Theorem parseQuotedValue_short_null_bare_verbatim (value : jsstring) :
  ((length (trim value) < 2)%nat -> parseQuotedValue value = None) /\
  ((2 <= length (trim value))%nat ->
   ~ wrappedIn DQUOTE (trim value) -> ~ wrappedIn SQUOTE (trim value) ->
   parseQuotedValue value = Some (trim value)).
Proof.
  unfold parseQuotedValue. split.
  - intros Hlt. by destruct (Nat.ltb_spec (length (trim value)) 2); [|lia].
  - intros Hge Hd Hs. destruct (Nat.ltb_spec (length (trim value)) 2); [lia|].
    rewrite <- wrapped_test in Hd, Hs.
    apply not_true_is_false in Hd, Hs. by rewrite Hd, Hs.
Qed.

Lemma parseQuotedValue_short_null_bare_verbatim_witness :
  parseQuotedValue (lit "  a ") = None /\
  parseQuotedValue (lit " test-key  ") = Some (lit "test-key").
Proof.
  split.
  - apply (parseQuotedValue_short_null_bare_verbatim (lit "  a ")).
    vm_compute. lia.
  - apply (parseQuotedValue_short_null_bare_verbatim (lit " test-key  ")).
    + vm_compute. lia.
    + intros [H _]. vm_compute in H. discriminate H.
    + intros [H _]. vm_compute in H. discriminate H.
Defined.

(** The cases of the test suite of the parser. *)
Example parseQuotedValue_tests :
  parseQuotedValue ([DQUOTE] ++ lit "test-key" ++ [DQUOTE]) = Some (lit "test-key") /\
  parseQuotedValue (lit "'test-key'") = Some (lit "test-key") /\
  parseQuotedValue ([DQUOTE] ++ lit "test\" ++ [DQUOTE] ++ lit "key\" ++ [DQUOTE]
                      ++ lit "test" ++ [DQUOTE])
  = Some (lit "test" ++ [DQUOTE] ++ lit "key" ++ [DQUOTE] ++ lit "test") /\
  parseQuotedValue (lit "'test\'key\'test'") = Some (lit "test'key'test") /\
  parseQuotedValue (lit "test-key") = Some (lit "test-key") /\
  parseQuotedValue (lit "") = None /\
  parseQuotedValue [DQUOTE] = None.
Proof. repeat split; by vm_compute. Qed.

(** C4, as stated, fails on the bare word [a]: the parser returns null,
    not the word. *)
Lemma parseQuotedValue_single_bare_char_null :
  parseQuotedValue (lit "a") = None /\
  parseQuotedValue (lit "a") <> Some (lit "a").
Proof. split; [by vm_compute|]. by vm_compute. Qed.

(** C3: the scanner reports an effective assignment on a line that assigns
    a longer variable, [Z_AI_API_KEY_BACKUP], in the syntax of either
    dialect family. *)
Theorem hasZaiKeyInProfile_longer_name :
  let posixLine := lit "export Z_AI_API_KEY_BACKUP=" ++ [DQUOTE] ++ lit "v" ++ [DQUOTE] in
  let psLine := lit "$env:Z_AI_API_KEY_BACKUP=" ++ [DQUOTE] ++ lit "v" ++ [DQUOTE] in
  hasZaiKeyInProfile posixLine zsh = true /\
  hasZaiKeyInProfile posixLine bash = true /\
  hasZaiKeyInProfile posixLine unknown = true /\
  hasZaiKeyInProfile psLine powershell = true /\
  hasZaiKeyInProfile psLine powershell_core = true.
Proof. repeat split; by vm_compute. Qed.

(** ** Properties of the orchestrator *)

Section Orchestrator.

Context {P : NodePath}.
Variable readJson : FileSystem -> jsstring -> outcome (option SettingsFile).

Implicit Types (proc : Process) (fs : FileSystem) (opts : Options).
Implicit Types (k p profile existing e : jsstring) (sh : ShellType).

Lemma search_occurrence (a b pat : jsstring) : is_Some (search (a ++ pat ++ b) pat).
Proof.
  induction a as [|x a IH].
  - simpl app. rewrite search_prefix; [by eexists|apply startsWith_self_app].
  - change ((x :: a) ++ pat ++ b) with (x :: (a ++ pat ++ b)).
    rewrite search_unfold. destruct (startsWith _ pat); [by eexists|].
    destruct IH as [i ->]. by eexists.
Qed.

Lemma includes_occurrence (a b pat : jsstring) : includes (a ++ pat ++ b) pat = true.
Proof.
  rewrite includes_search. by destruct (search_occurrence a b pat) as [i ->].
Qed.

(** The assignment line of a rendered block. *)
Definition assignmentLine k sh : jsstring :=
  (if isPowerShell sh then lit "$env:Z_AI_API_KEY=" else lit "export Z_AI_API_KEY=")
    ++ [DQUOTE] ++ k ++ [DQUOTE].

(** Whatever the profile held, the result of the upsert holds the
    assignment line of the block. *)
Lemma upsertBlock_includes_line existing k sh sh' :
  includes (upsertBlock existing (renderBlock k sh) sh') (assignmentLine k sh) = true.
Proof.
  rewrite renderBlock_body.
  assert (exists X T, upsertBlock existing (blockBody k sh ++ [NL]) sh'
                      = X ++ NL :: NL :: blockBody k sh ++ NL :: T) as (X & T & ->).
  { destruct (includes existing BLOCK_START_UNIX && includes existing BLOCK_END_UNIX) eqn:E.
    - apply andb_prop in E as [HS HE].
      destruct (upsertBlock_replace existing _ sh' HS HE (blockBody_solid k sh))
        as (X & T & -> & _). by exists X, T.
    - rewrite upsertBlock_append by (done || apply blockBody_solid).
      by exists (trimEnd existing), []. }
  unfold blockBody, assignmentLine.
  set (pfx := if isPowerShell sh then _ else _). clearbody pfx.
  replace (X ++ NL :: NL :: (BLOCK_START_UNIX ++ NL :: pfx ++ DQUOTE :: k
                             ++ DQUOTE :: NL :: BLOCK_END_UNIX) ++ NL :: T)
    with ((X ++ NL :: NL :: BLOCK_START_UNIX ++ [NL])
          ++ (pfx ++ [DQUOTE] ++ k ++ [DQUOTE])
          ++ (NL :: BLOCK_END_UNIX ++ NL :: T)).
  - apply includes_occurrence.
  - repeat (rewrite <- ?app_assoc; cbn [app]). reflexivity.
Qed.

Lemma mkdirSync_frame fs d :
  let fs1 := snd (mkdirSync fs d) in
  files fs1 = files fs /\ readFault fs1 = readFault fs /\ writeFault fs1 = writeFault fs.
Proof.
  unfold mkdirSync. destruct (mkdirFault fs d); [done|]. by case_bool_decide.
Qed.

Lemma afterMkdir_files fs profile : files (afterMkdir fs profile) = files fs.
Proof. apply mkdirSync_frame. Qed.

Lemma afterMkdir_readFault fs profile : readFault (afterMkdir fs profile) = readFault fs.
Proof. apply mkdirSync_frame. Qed.

Lemma afterMkdir_writeFault fs profile : writeFault (afterMkdir fs profile) = writeFault fs.
Proof. apply mkdirSync_frame. Qed.

(** Steps 1 to 3 of the decision order are passed: a key is resolved, the
    process environment does not set the variable, and a non-empty profile
    path is chosen. *)
Definition reachesProvision proc fs opts k profile : Prop :=
  resolveApiKey readJson fs opts = Return (Some k) /\
  normalizeApiKey (env_Z_AI_API_KEY proc) = None /\
  chosenProfile proc fs opts = Some profile /\
  profile <> [].

Lemma ensure_provision proc fs opts k profile :
  reachesProvision proc fs opts k profile ->
  ensureZaiShellEnv readJson proc fs opts
  = provision fs k profile (chosenShell proc opts).
Proof.
  intros (Hk & Henv & Hp & Hne). unfold ensureZaiShellEnv.
  rewrite Hk, Henv, Hp. by destruct profile.
Qed.

Lemma explicit_profile proc fs opts p :
  profilePath opts = Some p -> p <> [] ->
  chosenProfile proc fs opts = Some p /\
  chosenShell proc opts = detectShellFromPath p.
Proof.
  intros Hp Hne. unfold chosenProfile, chosenShell. rewrite Hp. by destruct p.
Qed.

(** The write step of [provision]. *)
Lemma provision_updated fs k profile sh existing :
  let fs1 := afterMkdir fs profile in
  let next := upsertBlock existing (renderBlock k sh) sh in
  readProfile fs1 profile = Return existing ->
  hasZaiKeyInProfile existing sh = false ->
  next <> existing ->
  writeFault fs profile = None -> profile ∉ dirs fs1 ->
  exists fs2,
    provision fs k profile sh
    = (Return (mkResult updated
                 (Some (if isPowerShell sh then lit "Run: . $PROFILE"
                        else lit "Run: source " ++ profile))
                 (Some profile)), fs2) /\
    files fs2 = <[profile := next]> (files fs).
Proof.
  intros fs1 next Hread Hscan Hnext Hw Hdir. unfold provision.
  fold fs1. rewrite Hread, Hscan. fold next.
  rewrite bool_decide_eq_false_2 by done.
  unfold writeFileSync. subst fs1.
  rewrite afterMkdir_writeFault, Hw, bool_decide_eq_false_2 by done.
  eexists. split; [reflexivity|]. cbn [files]. by rewrite afterMkdir_files.
Qed.

Lemma writeFileSync_throw fs p data e fs2 :
  writeFileSync fs p data = (Throw e, fs2) -> fs2 = fs.
Proof.
  unfold writeFileSync. destruct (writeFault fs p); [by intros [= _ <-]|].
  case_bool_decide; [by intros [= _ <-]|done].
Qed.

(** No usable value: absent, or empty or the placeholder once trimmed. *)
Definition unusable (raw : option jsstring) : Prop :=
  match raw with
  | None => True
  | Some v => trim v = [] \/ trim v = PLACEHOLDER_KEY
  end.

Lemma normalizeApiKey_unusable raw : normalizeApiKey raw = None <-> unusable raw.
Proof.
  destruct raw as [v|]; [|done]. unfold normalizeApiKey, unusable.
  destruct v as [|c v]; [by split; [left|]|].
  cbn [truthy negb]. destruct (trim (c :: v)) as [|d t] eqn:E.
  - split; [by left|done].
  - cbn [truthy negb orb]. case_bool_decide; [by split; [right|]|].
    split; [done|]. by intros [?|?].
Qed.

(** The settings lookup yields no usable value: there is no settings
    file, or the document it parses to has no string under
    [env.ANTHROPIC_API_KEY], or that string is unusable. *)
Definition settingsYieldNothing fs (dir : jsstring) : Prop :=
  let settingsPath := join dir SETTINGS_FILE in
  existsSync fs settingsPath = false \/
  exists settings,
    readJson fs settingsPath = Return settings /\
    match settingsKey settings with
    | Some (EnvString key) => unusable (Some key)
    | _ => True
    end.

(** C5: when neither the explicit value nor the settings lookup yields a
    usable value, the result is [skipped] with a message that contains
    "missing API key", and the file system is returned as it was: no
    file and no directory is created. *)
Theorem ensureZaiShellEnv_missing_key proc fs opts :
  unusable (apiKey opts) ->
  settingsYieldNothing fs (configDir opts) ->
  ensureZaiShellEnv readJson proc fs opts
  = (Return (mkResult skipped (Some MSG_MISSING) None), fs) /\
  includes MSG_MISSING (lit "missing API key") = true.
Proof.
  intros Hkey Hsettings. split; [|by vm_compute].
  apply normalizeApiKey_unusable in Hkey.
  unfold ensureZaiShellEnv, resolveApiKey, readSettingsApiKey. rewrite Hkey.
  destruct Hsettings as [-> | (settings & -> & Hs)]; [done|].
  destruct (existsSync fs _); [|done]. cbn [negb].
  destruct (settingsKey settings) as [[key|]|]; try done.
  apply normalizeApiKey_unusable in Hs. by rewrite Hs.
Qed.

(** C6: once a key is resolved and the environment does not set the
    variable, a profile whose content holds an effective assignment gives
    [skipped] with a message that contains "already set in shell
    profile", whatever the resolved key; the files are those of before. *)
Theorem ensureZaiShellEnv_profile_already_set proc fs opts k profile existing :
  reachesProvision proc fs opts k profile ->
  files fs !! profile = Some existing ->
  readFault fs profile = None ->
  hasZaiKeyInProfile existing (chosenShell proc opts) = true ->
  exists fs',
    ensureZaiShellEnv readJson proc fs opts
    = (Return (mkResult skipped (Some MSG_PROFILE) (Some profile)), fs') /\
    files fs' = files fs /\
    includes MSG_PROFILE (lit "already set in shell profile") = true.
Proof.
  intros Hreach Hfile Hfault Hscan.
  rewrite (ensure_provision _ _ _ _ _ Hreach).
  exists (afterMkdir fs profile). split; [|split; [apply afterMkdir_files|by vm_compute]].
  unfold provision, readProfile, existsSync, readFileSync.
  rewrite afterMkdir_files, afterMkdir_readFault, Hfile, Hfault.
  rewrite bool_decide_eq_true_2 by by eexists.
  cbn [orb]. by rewrite Hscan.
Qed.

(** C2, as amended: the call throws exactly when the settings read, the
    read of the profile or the final write throws, and then with that
    error; a failure of the directory creation is not among the causes.
    In every other case the call returns a result. A failure of the read
    or of the write is thus not turned into a [failed] result. *)
Theorem ensureZaiShellEnv_throws_iff proc fs opts e fs' :
  ensureZaiShellEnv readJson proc fs opts = (Throw e, fs') <->
  (resolveApiKey readJson fs opts = Throw e /\ fs' = fs) \/
  exists k profile,
    reachesProvision proc fs opts k profile /\
    fs' = afterMkdir fs profile /\
    let shell := chosenShell proc opts in
    (readProfile fs' profile = Throw e \/
     exists existing,
       readProfile fs' profile = Return existing /\
       hasZaiKeyInProfile existing shell = false /\
       let next := upsertBlock existing (renderBlock k shell) shell in
       next <> existing /\
       fst (writeFileSync fs' profile next) = Throw e).
Proof.
  split.
  - unfold ensureZaiShellEnv.
    destruct (resolveApiKey readJson fs opts) as [[k|]|e0] eqn:Hk;
      [|done|by intros [= -> ->]; left].
    destruct (normalizeApiKey (env_Z_AI_API_KEY proc)) eqn:Henv; [done|].
    destruct (chosenProfile proc fs opts) as [profile|] eqn:Hp; [|done].
    destruct profile as [|c profile]; [done|]. cbn [truthy negb].
    set (pr := c :: profile) in *. intros Hprov. right. exists k, pr.
    assert (Hreach : reachesProvision proc fs opts k pr) by done.
    unfold provision in Hprov.
    destruct (readProfile (afterMkdir fs pr) pr) as [existing|e1] eqn:Hread.
    + destruct (hasZaiKeyInProfile existing _) eqn:Hscan; [done|].
      case_bool_decide as Hnext; [done|].
      destruct (writeFileSync _ pr _) as [[[]|e2] fs2] eqn:Hw; [done|].
      injection Hprov as -> ->.
      pose proof (writeFileSync_throw _ _ _ _ _ Hw) as ->.
      split; [done|]. split; [done|]. cbn zeta. right. exists existing.
      rewrite Hread, Hw. done.
    + injection Hprov as -> <-. split; [done|]. split; [done|]. by left.
  - intros [[Hk ->] | (k & profile & Hreach & -> & Hcase)].
    + unfold ensureZaiShellEnv. by rewrite Hk.
    + rewrite (ensure_provision _ _ _ _ _ Hreach). unfold provision.
      cbn zeta in Hcase.
      destruct Hcase as [-> | (existing & -> & -> & Hnext & Hw)]; [done|].
      rewrite bool_decide_eq_false_2 by done.
      destruct (writeFileSync _ profile _) as [[[]|e2] fs2] eqn:Hw2; [done|].
      pose proof (writeFileSync_throw _ _ _ _ _ Hw2) as ->.
      simpl in Hw. congruence.
Qed.

Lemma endsWith_nonempty (s suffix : jsstring) :
  endsWith s suffix = true -> suffix <> [] -> s <> [].
Proof.
  unfold endsWith. intros [Hl _]%andb_prop Hs ->.
  apply Nat.leb_le in Hl. destruct suffix; [done|]. simpl in Hl. lia.
Qed.

Lemma renderBlock_powershell_not_posix k :
  renderBlock k powershell <> renderBlock k zsh.
Proof.
  unfold renderBlock. cbn [isPowerShell].
  unfold BLOCK_START_POWERSHELL. intros H. apply app_inv_head in H.
  cbn in H. discriminate H.
Qed.

(** C8: the dialect of an explicit profile path is read off its base
    name; and for a path whose base name ends in [.ps1], with a resolved
    key, what the engine writes into the profile is the upsert of the
    PowerShell block, whose assignment line is
    [$env:Z_AI_API_KEY="key"] and which is not the POSIX rendering. *)
Theorem detectShellFromPath_and_powershell_block :
  (forall p,
     (endsWith (basename p) (lit ".ps1") = true ->
      detectShellFromPath p = powershell) /\
     (basename p = lit ".zshrc" -> detectShellFromPath p = zsh) /\
     (basename p = lit ".bashrc" \/ basename p = lit ".bash_profile" ->
      detectShellFromPath p = bash) /\
     (endsWith (basename p) (lit ".ps1") = false ->
      basename p <> lit ".zshrc" -> basename p <> lit ".bashrc" ->
      basename p <> lit ".bash_profile" ->
      detectShellFromPath p = unknown)) /\
  (forall proc fs opts k p existing,
     profilePath opts = Some p ->
     endsWith (basename p) (lit ".ps1") = true ->
     resolveApiKey readJson fs opts = Return (Some k) ->
     normalizeApiKey (env_Z_AI_API_KEY proc) = None ->
     readProfile (afterMkdir fs p) p = Return existing ->
     hasZaiKeyInProfile existing powershell = false ->
     upsertBlock existing (renderBlock k powershell) powershell <> existing ->
     writeFault fs p = None -> p ∉ dirs (afterMkdir fs p) ->
     exists fs',
       ensureZaiShellEnv readJson proc fs opts
       = (Return (mkResult updated (Some (lit "Run: . $PROFILE")) (Some p)), fs') /\
       files fs' !! p
       = Some (upsertBlock existing (renderBlock k powershell) powershell) /\
       renderBlock k powershell
       = BLOCK_START_POWERSHELL ++ [NL] ++ lit "$env:Z_AI_API_KEY=" ++ [DQUOTE]
           ++ k ++ [DQUOTE] ++ [NL] ++ BLOCK_END_POWERSHELL ++ [NL] /\
       includes (upsertBlock existing (renderBlock k powershell) powershell)
                (lit "$env:Z_AI_API_KEY=" ++ [DQUOTE] ++ k ++ [DQUOTE]) = true /\
       renderBlock k powershell <> renderBlock k zsh).
Proof.
  split.
  - intros p. unfold detectShellFromPath. repeat split.
    + by intros ->.
    + by intros ->.
    + by intros [-> | ->].
    + intros -> Hz Hb Hbp. by rewrite !bool_decide_eq_false_2.
  - intros proc fs opts k p existing Hp Hps Hk Henv Hread Hscan Hnext Hw Hdir.
    assert (Hne : p <> []).
    { intros ->. rewrite basename_empty in Hps. done. }
    destruct (explicit_profile proc fs opts p Hp Hne) as [Hprofile Hshell].
    assert (Hdetect : detectShellFromPath p = powershell).
    { unfold detectShellFromPath. by rewrite Hps. }
    rewrite (ensure_provision proc fs opts k p) by done.
    rewrite Hshell, Hdetect.
    destruct (provision_updated fs k p powershell existing)
      as (fs2 & Hprov & Hfiles); try done.
    exists fs2. split; [exact Hprov|]. split; [by rewrite Hfiles, lookup_insert_eq|].
    split; [done|]. split; [apply (upsertBlock_includes_line existing k powershell)|].
    apply renderBlock_powershell_not_posix.
Qed.

(** C10: for an explicit, non-empty profile path whose base name matches
    no known pattern, the engine never answers [failed]; and with a
    resolved key, when it writes, the answer is [updated] and what it
    writes is the upsert of the POSIX block, whose assignment line is
    [export Z_AI_API_KEY="key"] between the Unix markers. *)
Theorem ensureZaiShellEnv_unknown_dialect_posix proc fs opts p :
  profilePath opts = Some p -> p <> [] ->
  detectShellFromPath p = unknown ->
  (forall r fs',
     ensureZaiShellEnv readJson proc fs opts = (Return r, fs') ->
     status r <> failed) /\
  (forall k existing,
     resolveApiKey readJson fs opts = Return (Some k) ->
     normalizeApiKey (env_Z_AI_API_KEY proc) = None ->
     readProfile (afterMkdir fs p) p = Return existing ->
     hasZaiKeyInProfile existing unknown = false ->
     upsertBlock existing (renderBlock k unknown) unknown <> existing ->
     writeFault fs p = None -> p ∉ dirs (afterMkdir fs p) ->
     exists fs',
       ensureZaiShellEnv readJson proc fs opts
       = (Return (mkResult updated (Some (lit "Run: source " ++ p)) (Some p)), fs') /\
       files fs' !! p
       = Some (upsertBlock existing (renderBlock k unknown) unknown) /\
       renderBlock k unknown
       = BLOCK_START_UNIX ++ [NL] ++ lit "export Z_AI_API_KEY=" ++ [DQUOTE]
           ++ k ++ [DQUOTE] ++ [NL] ++ BLOCK_END_UNIX ++ [NL] /\
       includes (upsertBlock existing (renderBlock k unknown) unknown)
                (lit "export Z_AI_API_KEY=" ++ [DQUOTE] ++ k ++ [DQUOTE]) = true).
Proof.
  intros Hp Hne Hdetect.
  destruct (explicit_profile proc fs opts p Hp Hne) as [Hprofile Hshell].
  split.
  - intros r fs'. unfold ensureZaiShellEnv.
    destruct (resolveApiKey readJson fs opts) as [[k|]|e0]; [|by intros [= <- _]|done].
    destruct (normalizeApiKey (env_Z_AI_API_KEY proc)); [by intros [= <- _]|].
    rewrite Hprofile. destruct p as [|c p]; [done|]. cbn [truthy negb].
    unfold provision.
    destruct (readProfile _ _) as [existing|e1]; [|done].
    destruct (hasZaiKeyInProfile existing _); [by intros [= <- _]|].
    case_bool_decide; [by intros [= <- _]|].
    destruct (writeFileSync _ _ _) as [[[]|e2] fs2]; [by intros [= <- _]|done].
  - intros k existing Hk Henv Hread Hscan Hnext Hw Hdir.
    rewrite (ensure_provision proc fs opts k p) by done.
    rewrite Hshell, Hdetect.
    destruct (provision_updated fs k p unknown existing)
      as (fs2 & Hprov & Hfiles); try done.
    exists fs2. split; [exact Hprov|]. split; [by rewrite Hfiles, lookup_insert_eq|].
    split; [done|]. apply (upsertBlock_includes_line existing k unknown).
Qed.

End Orchestrator.

(** ** The scenarios of the test suite, on the POSIX host *)

(** The settings hold the placeholder and the profile does not exist. *)
Lemma ensureZaiShellEnv_missing_key_witness :
  let fs := plainFS [(lit "/tmp/t/config/settings.json", lit "{}")] in
  let opts := mkOptions None (lit "/tmp/t/config") (Some (lit "/tmp/t/.zshrc")) in
  ensureZaiShellEnv (readJsonWith (lit " <API_KEY> ")) zshProcess fs opts
  = (Return (mkResult skipped (Some MSG_MISSING) None), fs) /\
  includes MSG_MISSING (lit "missing API key") = true.
Proof.
  intros fs opts.
  apply (ensureZaiShellEnv_missing_key (readJsonWith (lit " <API_KEY> ")) zshProcess fs opts).
  - exact I.
  - right. eexists. split; [reflexivity|]. vm_compute. by right.
Defined.

(** The profile already assigns a key, and the settings hold another. *)
Lemma ensureZaiShellEnv_profile_already_set_witness :
  let existing := lit "export Z_AI_API_KEY=" ++ [DQUOTE] ++ lit "existing-key" ++ [DQUOTE; NL] in
  let fs := plainFS [(lit "/tmp/t/config/settings.json", lit "{}");
                     (lit "/tmp/t/.zshrc", existing)] in
  let opts := mkOptions None (lit "/tmp/t/config") (Some (lit "/tmp/t/.zshrc")) in
  exists fs',
    ensureZaiShellEnv (readJsonWith (lit "new-key")) zshProcess fs opts
    = (Return (mkResult skipped (Some MSG_PROFILE) (Some (lit "/tmp/t/.zshrc"))), fs') /\
    files fs' = files fs /\
    includes MSG_PROFILE (lit "already set in shell profile") = true.
Proof.
  intros existing fs opts.
  apply (ensureZaiShellEnv_profile_already_set (readJsonWith (lit "new-key"))
           zshProcess fs opts (lit "new-key") (lit "/tmp/t/.zshrc") existing).
  - repeat split; by vm_compute.
  - by vm_compute.
  - reflexivity.
  - by vm_compute.
Defined.

(** The write of the profile is refused by the file system. *)
Definition readOnlyFS : FileSystem :=
  mkFS ∅ ∅ (fun _ => None) (fun _ => Some (lit "EACCES: permission denied"))
       (fun _ => None).

(** C2, as stated, fails when the final write fails: the call throws the
    error of the write, it does not return a [failed] result. *)
Lemma ensureZaiShellEnv_write_failure_throws :
  let opts := mkOptions (Some (lit "abc123")) (lit "/tmp/t/config")
                        (Some (lit "/tmp/t/.zshrc")) in
  fst (ensureZaiShellEnv (readJsonWith (lit "abc123")) zshProcess readOnlyFS opts)
  = Throw (lit "EACCES: permission denied") /\
  ~ exists r fs',
      ensureZaiShellEnv (readJsonWith (lit "abc123")) zshProcess readOnlyFS opts
      = (Return r, fs').
Proof.
  intros opts.
  assert (H : fst (ensureZaiShellEnv (readJsonWith (lit "abc123")) zshProcess
                     readOnlyFS opts) = Throw (lit "EACCES: permission denied"))
    by by vm_compute.
  split; [exact H|]. intros (r & fs' & Hr). rewrite Hr in H. discriminate H.
Qed.

Lemma ensureZaiShellEnv_throws_iff_witness :
  let opts := mkOptions (Some (lit "abc123")) (lit "/tmp/t/config")
                        (Some (lit "/tmp/t/.zshrc")) in
  ensureZaiShellEnv (readJsonWith (lit "abc123")) zshProcess readOnlyFS opts
  = (Throw (lit "EACCES: permission denied"),
     afterMkdir readOnlyFS (lit "/tmp/t/.zshrc")).
Proof.
  intros opts.
  apply (ensureZaiShellEnv_throws_iff (readJsonWith (lit "abc123")) zshProcess
           readOnlyFS opts).
  right. exists (lit "abc123"), (lit "/tmp/t/.zshrc").
  split; [repeat split; by vm_compute|]. split; [reflexivity|].
  right. exists []. split; [by vm_compute|]. split; [by vm_compute|].
  split; [|by vm_compute]. by_evaluation.
Defined.

(** A fresh key and a PowerShell profile that does not exist yet. *)
Lemma detectShellFromPath_and_powershell_block_witness :
  let p := lit "/tmp/t/WindowsPowerShell/Microsoft.PowerShell_profile.ps1" in
  let fs := plainFS [(lit "/tmp/t/config/settings.json", lit "{}")] in
  let opts := mkOptions None (lit "/tmp/t/config") (Some p) in
  detectShellFromPath p = powershell /\
  exists fs',
    ensureZaiShellEnv (readJsonWith (lit "xyz789")) zshProcess fs opts
    = (Return (mkResult updated (Some (lit "Run: . $PROFILE")) (Some p)), fs') /\
    files fs' !! p
    = Some ([NL; NL] ++ BLOCK_START_POWERSHELL ++ [NL] ++ lit "$env:Z_AI_API_KEY="
              ++ [DQUOTE] ++ lit "xyz789" ++ [DQUOTE] ++ [NL]
              ++ BLOCK_END_POWERSHELL ++ [NL]).
Proof.
  intros p fs opts.
  destruct (detectShellFromPath_and_powershell_block (readJsonWith (lit "xyz789")))
    as [Hdetect Hwrite].
  split; [apply Hdetect; by vm_compute|].
  destruct (Hwrite zshProcess fs opts (lit "xyz789") p []) as (fs' & Hres & Hfile & _).
  all: try (by vm_compute).
  all: try (by_evaluation).
  exists fs'. split; [exact Hres|]. rewrite Hfile. by vm_compute.
Defined.

(** A fresh key and a profile path of no known dialect. *)
Lemma ensureZaiShellEnv_unknown_dialect_posix_witness :
  let p := lit "/tmp/t/profile.txt" in
  let fs := plainFS [(lit "/tmp/t/config/settings.json", lit "{}");
                     (p, lit "PATH=/bin" ++ [NL])] in
  let opts := mkOptions None (lit "/tmp/t/config") (Some p) in
  exists fs',
    ensureZaiShellEnv (readJsonWith (lit "abc123")) zshProcess fs opts
    = (Return (mkResult updated (Some (lit "Run: source /tmp/t/profile.txt")) (Some p)), fs') /\
    files fs' !! p
    = Some (lit "PATH=/bin" ++ [NL; NL] ++ BLOCK_START_UNIX ++ [NL]
              ++ lit "export Z_AI_API_KEY=" ++ [DQUOTE] ++ lit "abc123" ++ [DQUOTE]
              ++ [NL] ++ BLOCK_END_UNIX ++ [NL]).
Proof.
  intros p fs opts.
  destruct (ensureZaiShellEnv_unknown_dialect_posix (readJsonWith (lit "abc123"))
              zshProcess fs opts p) as [_ Hwrite]; try (by vm_compute).
  destruct (Hwrite (lit "abc123") (lit "PATH=/bin" ++ [NL]))
    as (fs' & Hres & Hfile & _).
  all: try (by vm_compute).
  all: try (by_evaluation).
  exists fs'. split; [exact Hres|]. rewrite Hfile. by vm_compute.
Defined.

(** * Further properties of the module *)

(** ** The key normaliser *)

Section Normaliser.

Implicit Types (s v k : jsstring).

Lemma trim_idem s : trim (trim s) = trim s.
Proof.
  unfold trim.
  rewrite (trimStart_trimEnd (trimStart s)) by apply trimStart_idem.
  apply trimEnd_idem.
Qed.

Lemma normalizeApiKey_normal (raw : option jsstring) k :
  normalizeApiKey raw = Some k ->
  k <> [] /\ k <> PLACEHOLDER_KEY /\ trim k = k /\
  normalizeApiKey (Some k) = Some k.
Proof.
  destruct raw as [v|]; [|done]. unfold normalizeApiKey at 1.
  destruct (truthy v); [|done]. cbn [negb].
  destruct (trim v) as [|c t] eqn:Hv; [done|]. cbn [truthy negb orb].
  case_bool_decide as Hph; [done|]. intros [= <-].
  assert (Htrim : trim (c :: t) = c :: t) by (rewrite <- Hv; apply trim_idem).
  repeat split; [done|done|done|].
  unfold normalizeApiKey. cbn [truthy negb]. rewrite Htrim. cbn [truthy negb orb].
  by rewrite bool_decide_eq_false_2.
Qed.

End Normaliser.

(** X1: a key that [normalizeApiKey] accepts is not empty, is not the
    placeholder, carries no surrounding white space, and is accepted
    unchanged when it is normalised again. *)
Theorem normalizeApiKey_normal_form (raw : option jsstring) (k : jsstring) :
  normalizeApiKey raw = Some k ->
  k <> [] /\ k <> PLACEHOLDER_KEY /\ trim k = k /\
  normalizeApiKey (Some k) = Some k.
Proof. apply normalizeApiKey_normal. Qed.

Lemma normalizeApiKey_normal_form_witness :
  normalizeApiKey (Some (lit "  abc 123 ")) = Some (lit "abc 123") /\
  trim (lit "abc 123") = lit "abc 123" /\
  normalizeApiKey (Some (lit "abc 123")) = Some (lit "abc 123").
Proof.
  assert (H : normalizeApiKey (Some (lit "  abc 123 ")) = Some (lit "abc 123"))
    by by vm_compute.
  split; [exact H|].
  by destruct (normalizeApiKey_normal_form _ _ H) as (_ & _ & H3 & H4).
Defined.

(** ** The assignment scanner *)

Section Scanner.

Implicit Types (s a b k line : jsstring) (sh : ShellType) (c x : N).

Lemma split_nonempty x s : split x s <> [].
Proof.
  destruct s as [|c s]; [done|]. simpl.
  destruct (c =? x)%N; [done|]. by destruct (split x s).
Qed.

Lemma split_app x a b : split x (a ++ x :: b) = split x a ++ split x b.
Proof.
  induction a as [|c a IH]; simpl.
  - by rewrite N.eqb_refl.
  - rewrite IH. destruct (c =? x)%N; [done|].
    pose proof (split_nonempty x a). by destruct (split x a).
Qed.

Lemma split_no_sep x s : x ∉ s -> split x s = [s].
Proof.
  induction s as [|c s IH]; [done|].
  intros [Hc Hs]%not_elem_of_cons. simpl. rewrite IH by done.
  destruct (N.eqb_spec c x); [congruence|done].
Qed.

Lemma scanLines_app sh (l1 l2 : list jsstring) :
  scanLines sh (l1 ++ l2) = scanLines sh l1 || scanLines sh l2.
Proof.
  induction l1 as [|l l1 IH]; simpl; [done|].
  by destruct (lineSetsKey sh l).
Qed.

Lemma search_single_skip a b x :
  x ∉ a -> search (a ++ x :: b) [x] = Some (length a).
Proof.
  induction a as [|c a IH]; intros Hx.
  - simpl app. rewrite search_unfold. simpl. by rewrite N.eqb_refl.
  - apply not_elem_of_cons in Hx as [Hxc Ha].
    change ((c :: a) ++ x :: b) with (c :: (a ++ x :: b)).
    rewrite search_unfold. simpl startsWith.
    destruct (N.eqb_spec x c); [congruence|]. cbn [andb].
    by rewrite IH.
Qed.

Lemma scan_newline a b sh :
  hasZaiKeyInProfile (a ++ NL :: b) sh
  = hasZaiKeyInProfile a sh || hasZaiKeyInProfile b sh.
Proof. unfold hasZaiKeyInProfile. by rewrite split_app, scanLines_app. Qed.

End Scanner.

(** X2: the scanner treats the profile line by line: a profile made of
    two parts separated by a newline holds an effective assignment
    exactly when one of the parts does. *)
Theorem hasZaiKeyInProfile_lines (a b : jsstring) (shell : ShellType) :
  hasZaiKeyInProfile (a ++ [NL] ++ b) shell
  = hasZaiKeyInProfile a shell || hasZaiKeyInProfile b shell.
Proof. apply scan_newline. Qed.

(** X3: blank lines and comment lines never count. A profile whose every
    line is empty after trimming, or starts with [#] after trimming, holds
    no effective assignment, whatever the dialect; a commented-out
    assignment is such a line. *)
Theorem hasZaiKeyInProfile_comments_ignored (content : jsstring) (shell : ShellType) :
  Forall (fun line => trim line = [] \/ startsWith (trim line) (lit "#") = true)
         (split NL content) ->
  hasZaiKeyInProfile content shell = false.
Proof.
  unfold hasZaiKeyInProfile. induction 1 as [|line rest Hline _ IH]; [done|].
  simpl. unfold lineSetsKey at 1.
  destruct Hline as [-> | ->]; [done|]. by rewrite orb_true_r.
Qed.

Lemma hasZaiKeyInProfile_comments_ignored_witness :
  hasZaiKeyInProfile
    (lit "# export Z_AI_API_KEY=abc123" ++ [NL] ++ lit "   " ++ [NL]
       ++ lit "  #Z_AI_API_KEY=abc123") zsh = false.
Proof.
  apply hasZaiKeyInProfile_comments_ignored. by_evaluation.
Defined.

(** ** The quoted-value parser, in general *)

(** The spelling of a value between quotes [q] in which every [q] of the
    value is written backslash-[q]: the escapes that [parseQuotedValue]
    undoes. *)
Definition escapeQuote (q : N) (v : jsstring) : jsstring :=
  flat_map (fun c => if (c =? q)%N then [BACKSLASH; q] else [c]) v.

Section ParserGeneral.

Implicit Types (s t v w k : jsstring) (c q h : N).

Lemma trim_solid h w c :
  isWhiteSpace h = false -> isWhiteSpace c = false ->
  trim (h :: w ++ [c]) = h :: w ++ [c].
Proof.
  intros Hh Hc. unfold trim. rewrite trimStart_head by done.
  by apply (trimEnd_app_last (h :: w)).
Qed.

Lemma quote_not_white q : q = DQUOTE \/ q = SQUOTE -> isWhiteSpace q = false.
Proof. by intros [-> | ->]. Qed.

Lemma parseQuotedValue_quoted w q :
  q = DQUOTE \/ q = SQUOTE ->
  parseQuotedValue (q :: w ++ [q]) = Some (replaceAll w [BACKSLASH; q] [q]).
Proof.
  intros Hq. unfold parseQuotedValue.
  pose proof (quote_not_white q Hq) as Hws.
  rewrite trim_solid by done.
  cbn [length]. rewrite length_app. cbn [length].
  destruct (Nat.ltb_spec (S (length w + 1)) 2); [lia|].
  replace (S (length w + 1) - 1)%nat with (length (q :: w)) by (simpl; lia).
  change (q :: w ++ [q]) with ((q :: w) ++ [q]).
  rewrite (list_lookup_middle (q :: w) [] q (length (q :: w)) eq_refl).
  change ((q :: w) ++ [q]) with (q :: w ++ [q]).
  cbn [lookup list_lookup].
  assert (Hslice : slice (q :: w ++ [q]) 1 (-1) = w).
  { unfold slice, clampIndex. cbn [length]. rewrite length_app. cbn [length].
    destruct (Z.ltb_spec 1 0); [lia|]. destruct (Z.ltb_spec (-1) 0); [|lia].
    replace (Z.to_nat (Z.min 1 _)) with 1%nat by lia.
    cbn [drop]. rewrite drop_0, take_app_length'; [done|lia]. }
  rewrite Hslice.
  assert (Hne : Some SQUOTE <> Some DQUOTE) by (unfold SQUOTE, DQUOTE; discriminate).
  destruct Hq as [-> | ->].
  - by rewrite (bool_decide_eq_true_2 (Some DQUOTE = Some DQUOTE)).
  - rewrite (bool_decide_eq_true_2 (Some SQUOTE = Some SQUOTE)) by done.
    by rewrite (bool_decide_eq_false_2 (Some SQUOTE = Some DQUOTE)).
Qed.

Lemma replaceAll_escapeQuote q v :
  q <> BACKSLASH -> BACKSLASH ∉ v ->
  replaceAll (escapeQuote q v) [BACKSLASH; q] [q] = v.
Proof.
  intros Hq. unfold replaceAll.
  induction v as [|c v IH]; intros Hv; [done|].
  apply not_elem_of_cons in Hv as [Hc Hv].
  cbn [escapeQuote flat_map]. destruct (N.eqb_spec c q) as [-> | Hcq].
  - cbn [app replaceAllFrom startsWith length Nat.sub].
    rewrite !N.eqb_refl. cbn [andb app].
    f_equal. by apply IH.
  - cbn [app replaceAllFrom startsWith].
    destruct (N.eqb_spec BACKSLASH c); [congruence|]. cbn [andb].
    f_equal. by apply IH.
Qed.

End ParserGeneral.

(** X4: a token wrapped in a pair of double or single quotes parses to
    its interior with every backslash-quote pair of that kind replaced by
    the quote, whatever the interior holds. *)
Theorem parseQuotedValue_unescapes (w : jsstring) (q : N) :
  q = DQUOTE \/ q = SQUOTE ->
  parseQuotedValue ([q] ++ w ++ [q]) = Some (replaceAll w [BACKSLASH; q] [q]).
Proof. apply parseQuotedValue_quoted. Qed.

Lemma parseQuotedValue_unescapes_witness :
  parseQuotedValue ([SQUOTE] ++ lit "it\'s \'x\' \" ++ [SQUOTE])
  = Some (lit "it's 'x' \").
Proof.
  rewrite (parseQuotedValue_unescapes (lit "it\'s \'x\' \") SQUOTE) by by right.
  by vm_compute.
Defined.

(** X5: escaping round trip. For a value without backslash, writing each
    quote of the value as backslash-quote, wrapping the result in that
    quote and parsing it gives the value back; this holds for double
    and for single quotes, and for values that hold quotes of either kind. *)
Theorem parseQuotedValue_escaped_roundtrip (v : jsstring) (q : N) :
  q = DQUOTE \/ q = SQUOTE -> BACKSLASH ∉ v ->
  parseQuotedValue ([q] ++ escapeQuote q v ++ [q]) = Some v.
Proof.
  intros Hq Hv. cbn [app]. rewrite parseQuotedValue_quoted by done.
  rewrite replaceAll_escapeQuote; [done| |done].
  by destruct Hq as [-> | ->].
Qed.

Lemma parseQuotedValue_escaped_roundtrip_witness :
  let v := lit "say " ++ [DQUOTE] ++ lit "hi" ++ [DQUOTE] ++ lit " it's" in
  escapeQuote DQUOTE v
  = lit "say \" ++ [DQUOTE] ++ lit "hi\" ++ [DQUOTE] ++ lit " it's" /\
  parseQuotedValue ([DQUOTE] ++ escapeQuote DQUOTE v ++ [DQUOTE]) = Some v.
Proof.
  intros v. split; [by vm_compute|].
  apply parseQuotedValue_escaped_roundtrip; [by left|by_evaluation].
Defined.

(** ** Scanning what the codec renders *)

Section RenderedLine.

Implicit Types (s a b k r : jsstring) (sh : ShellType).

(** The assignment proper, once the dialect prefix is stripped. *)
Definition bareAssignment k : jsstring :=
  Z_AI_API_KEY ++ lit "=" ++ [DQUOTE] ++ k ++ [DQUOTE].

Lemma bareAssignment_effective k :
  normalizeApiKey (Some k) = Some k -> BACKSLASH ∉ k ->
  startsWith (bareAssignment k) Z_AI_API_KEY = true /\
  indexOf (bareAssignment k) (lit "=") 0 = 12 /\
  effectiveValue (trim (sliceFrom (bareAssignment k) (12 + 1))) = true.
Proof.
  intros Hk Hbs. unfold bareAssignment. split; [apply startsWith_self_app|].
  assert (Hidx : search (Z_AI_API_KEY ++ lit "=" ++ [DQUOTE] ++ k ++ [DQUOTE]) (lit "=")
                 = Some 12%nat).
  { change (lit "=" ++ [DQUOTE] ++ k ++ [DQUOTE]) with (61%N :: DQUOTE :: k ++ [DQUOTE]).
    change (lit "=") with [61%N].
    rewrite search_single_skip; [done|by_evaluation]. }
  split; [by rewrite indexOf_0, Hidx|].
  change (12 + 1) with (Z.of_nat 13). rewrite sliceFrom_nat.
  change (Z_AI_API_KEY ++ lit "=" ++ [DQUOTE] ++ k ++ [DQUOTE])
    with ((Z_AI_API_KEY ++ lit "=") ++ DQUOTE :: k ++ [DQUOTE]).
  rewrite drop_app_length' by done.
  rewrite trim_solid by done.
  unfold effectiveValue.
  rewrite (parseQuotedValue_quoted_no_backslash k DQUOTE) by auto.
  rewrite Hk. destruct k; [done|].
  cbn [truthy andb]. by rewrite bool_decide_eq_true_2.
Qed.

Lemma assignmentLine_sets_key k sh :
  normalizeApiKey (Some k) = Some k -> BACKSLASH ∉ k ->
  lineSetsKey sh (assignmentLine k sh) = true.
Proof.
  intros Hk Hbs.
  destruct (bareAssignment_effective k Hk Hbs) as (Hname & Hidx & Hval).
  unfold lineSetsKey, assignmentLine. destruct (isPowerShell sh).
  - change (lit "$env:Z_AI_API_KEY=" ++ [DQUOTE] ++ k ++ [DQUOTE])
      with (36%N :: (lit "env:" ++ bareAssignment k)).
    assert (Htrim : trim (36%N :: (lit "env:" ++ bareAssignment k))
                    = 36%N :: (lit "env:" ++ bareAssignment k)).
    { unfold bareAssignment. rewrite !app_assoc. by apply trim_solid. }
    rewrite Htrim. cbn [truthy negb orb].
    change (36%N :: (lit "env:" ++ bareAssignment k))
      with (lit "$env:" ++ bareAssignment k).
    replace (startsWith (lit "$env:" ++ bareAssignment k) (lit "#")) with false by done.
    rewrite startsWith_self_app.
    change 5 with (Z.of_nat (length (lit "$env:"))).
    rewrite sliceFrom_nat, drop_app_length.
    by rewrite Hname, Hidx, Hval.
  - change (lit "export Z_AI_API_KEY=" ++ [DQUOTE] ++ k ++ [DQUOTE])
      with (101%N :: (lit "xport " ++ bareAssignment k)).
    assert (Htrim : trim (101%N :: (lit "xport " ++ bareAssignment k))
                    = 101%N :: (lit "xport " ++ bareAssignment k)).
    { unfold bareAssignment. rewrite !app_assoc. by apply trim_solid. }
    rewrite Htrim. cbn [truthy negb orb].
    change (101%N :: (lit "xport " ++ bareAssignment k))
      with (lit "export " ++ bareAssignment k).
    replace (startsWith (lit "export " ++ bareAssignment k) (lit "#")) with false by done.
    rewrite startsWith_self_app.
    change 7 with (Z.of_nat (length (lit "export "))).
    rewrite sliceFrom_nat, drop_app_length.
    assert (Htrim2 : trim (bareAssignment k) = bareAssignment k).
    { unfold bareAssignment.
      change (Z_AI_API_KEY ++ lit "=" ++ [DQUOTE] ++ k ++ [DQUOTE])
        with (90%N :: (lit "_AI_API_KEY=" ++ [DQUOTE] ++ k ++ [DQUOTE])).
      rewrite !app_assoc. by apply trim_solid. }
    by rewrite Htrim2, Hname, Hidx, Hval.
Qed.

End RenderedLine.

(** The profile that [upsertBlock] returns holds the assignment line of
    the block on a line of its own, where the scanner finds it. *)
Lemma scan_after_upsert (existing k : jsstring) (shell upsertShell : ShellType) :
  normalizeApiKey (Some k) = Some k -> NL ∉ k -> BACKSLASH ∉ k ->
  hasZaiKeyInProfile (upsertBlock existing (renderBlock k shell) upsertShell) shell
  = true.
Proof.
  intros Hk Hnl Hbs. rewrite renderBlock_body.
  assert (exists X T, upsertBlock existing (blockBody k shell ++ [NL]) upsertShell
                      = X ++ NL :: NL :: blockBody k shell ++ NL :: T) as (X & T & ->).
  { destruct (includes existing BLOCK_START_UNIX && includes existing BLOCK_END_UNIX) eqn:E.
    - apply andb_prop in E as [HS HE].
      destruct (upsertBlock_replace existing _ upsertShell HS HE (blockBody_solid k shell))
        as (X & T & -> & _). by exists X, T.
    - rewrite upsertBlock_append by (done || apply blockBody_solid).
      by exists (trimEnd existing), []. }
  replace (X ++ NL :: NL :: blockBody k shell ++ NL :: T)
    with ((X ++ NL :: NL :: BLOCK_START_UNIX) ++ [NL]
          ++ (assignmentLine k shell ++ [NL] ++ (BLOCK_END_UNIX ++ NL :: T))).
  - cbn [app]. rewrite !scan_newline.
    assert (Hline : hasZaiKeyInProfile (assignmentLine k shell) shell = true).
    { unfold hasZaiKeyInProfile. rewrite split_no_sep.
      - simpl. by rewrite assignmentLine_sets_key.
      - unfold assignmentLine. rewrite !not_elem_of_app. repeat split; try done.
        + destruct (isPowerShell shell); by_evaluation.
        + by_evaluation.
        + by_evaluation. }
    rewrite Hline. by rewrite orb_true_r.
  - unfold blockBody, assignmentLine.
    repeat (rewrite <- ?app_assoc; cbn [app]). reflexivity.
Qed.

(** X6: rendering, upserting, then scanning. For a key in normal form
    (accepted unchanged by [normalizeApiKey]) without newline and without
    backslash, the profile that [upsertBlock] returns holds an effective
    assignment for the dialect of the rendering, whatever the profile held
    before. *)
Theorem hasZaiKeyInProfile_after_upsert
    (existing k : jsstring) (shell upsertShell : ShellType) :
  normalizeApiKey (Some k) = Some k -> NL ∉ k -> BACKSLASH ∉ k ->
  hasZaiKeyInProfile (upsertBlock existing (renderBlock k shell) upsertShell) shell
  = true.
Proof. apply scan_after_upsert. Qed.

Lemma hasZaiKeyInProfile_after_upsert_witness :
  hasZaiKeyInProfile
    (upsertBlock (lit "PATH=/bin") (renderBlock (lit "abc=123") powershell) zsh)
    powershell = true.
Proof.
  apply hasZaiKeyInProfile_after_upsert; [by vm_compute|by_evaluation|by_evaluation].
Defined.

(** ** The block codec: replacement in place *)

Section InPlace.

Implicit Types (s a b p pre post rest u X T C k : jsstring) (c : N) (sh : ShellType).

Lemma startsWith_lookup s p (i : nat) :
  startsWith s p = true -> (i < length p)%nat -> s !! i = p !! i.
Proof.
  revert s i. induction p as [|x p IH]; intros [|y s] i; simpl; try done; try lia.
  intros [Hxy Hs]%andb_prop Hi. apply N.eqb_eq in Hxy as ->.
  destruct i as [|i]; [done|]. simpl. apply IH; [done|lia].
Qed.

(** The start marker does not overlap itself: its first code unit, [#],
    does not occur again in it. *)
Lemma START_no_border a rest :
  a <> [] -> startsWith a BLOCK_START_UNIX = false ->
  startsWith (a ++ BLOCK_START_UNIX ++ rest) BLOCK_START_UNIX = false.
Proof.
  intros Ha Hno. destruct (startsWith (a ++ _ ++ rest) _) eqn:E; [|done]. exfalso.
  destruct (decide (length BLOCK_START_UNIX <= length a)%nat) as [Hl|Hl].
  - rewrite startsWith_app_long in E by done. congruence.
  - pose proof (startsWith_lookup _ _ (length a) E ltac:(lia)) as Hi.
    rewrite lookup_app_r, Nat.sub_diag in Hi by lia.
    change ((BLOCK_START_UNIX ++ rest) !! 0%nat) with (Some 35%N) in Hi.
    destruct a as [|c a]; [done|]. simpl length in Hi.
    change BLOCK_START_UNIX with (35%N :: lit " claude-sneakpeek: Z.ai env start") in Hi.
    simpl in Hi. symmetry in Hi. apply list_elem_of_lookup_2 in Hi.
    revert Hi. by_evaluation.
Qed.

Lemma search_start_after pre rest :
  search pre BLOCK_START_UNIX = None ->
  search (pre ++ BLOCK_START_UNIX ++ rest) BLOCK_START_UNIX = Some (length pre).
Proof.
  induction pre as [|c pre IH]; intros Hpre.
  - rewrite app_nil_l. apply search_prefix, startsWith_self_app.
  - rewrite search_unfold in Hpre.
    destruct (startsWith (c :: pre) BLOCK_START_UNIX) eqn:Hc; [done|].
    destruct (search pre BLOCK_START_UNIX) eqn:Hp; [done|].
    rewrite search_unfold, START_no_border by done.
    change ((c :: pre) ++ BLOCK_START_UNIX ++ rest)
      with (c :: (pre ++ BLOCK_START_UNIX ++ rest)).
    cbn iota. by rewrite IH.
Qed.

Lemma search_after_some a b p : is_Some (search b p) -> is_Some (search (a ++ b) p).
Proof.
  intros Hb. induction a as [|x a IH]; [done|].
  change ((x :: a) ++ b) with (x :: (a ++ b)). rewrite search_unfold.
  destruct (startsWith _ p); [by eexists|]. destruct IH as [i ->]. by eexists.
Qed.

Lemma startsWith_split s p : startsWith s p = true -> exists m, s = p ++ m.
Proof.
  revert s. induction p as [|x p IH]; intros s; [by exists s|].
  destruct s as [|y s]; [done|]. simpl.
  intros [Hxy Hs]%andb_prop. apply N.eqb_eq in Hxy as ->.
  destruct (IH s Hs) as [m ->]. by exists m.
Qed.

(** What is kept of the text after the replaced block. *)
Definition keptTail post : jsstring :=
  match trim post with
  | [] => []
  | u => NL :: u ++ [NL]
  end.

Lemma keptTail_shape post : tailShape (keptTail post).
Proof.
  unfold keptTail. destruct (trim post) as [|c u] eqn:E; [by left|].
  right. exists (c :: u). split; [done|]. rewrite <- E. split.
  - split; [apply trimEnd_idem|]. unfold trim in *. by rewrite E.
  - unfold trim. apply trimStart_trimEnd, trimStart_idem.
Qed.

(** The replace path on a profile that holds a marked block after a text
    without start marker. *)
Lemma upsertBlock_in_place pre post B0 B1 sh :
  search pre BLOCK_START_UNIX = None -> markedBody B0 -> solid B1 ->
  upsertBlock (pre ++ B0 ++ NL :: post) (B1 ++ [NL]) sh
  = trimEnd pre ++ NL :: NL :: B1 ++ NL :: keptTail post.
Proof.
  intros Hpre (Hst & Hend & HB0) HB1.
  destruct (startsWith_split _ _ Hst) as [m HB0m].
  pose proof (search_bound _ _ _ Hend) as Hlen.
  unfold upsertBlock. rewrite getBlockMarkers_all.
  set (R := pre ++ B0 ++ NL :: post).
  assert (HsS : search R BLOCK_START_UNIX = Some (length pre)).
  { subst R. rewrite HB0m, <- app_assoc. by apply search_start_after. }
  assert (HsE : search (B0 ++ NL :: post) BLOCK_END_UNIX
                = Some (length B0 - length BLOCK_END_UNIX)%nat)
    by by apply search_app_l.
  assert (HinE : is_Some (search R BLOCK_END_UNIX)).
  { subst R. apply search_after_some. rewrite HsE. by eexists. }
  destruct HinE as [e He].
  assert (HRlen : length R = (length pre + length B0 + 1 + length post)%nat).
  { subst R. repeat (rewrite !length_app; cbn [length]). lia. }
  rewrite !includes_search, HsS, He. cbn [andb].
  rewrite indexOf_0, HsS.
  rewrite indexOf_nat by lia.
  assert (Hdrop : drop (length pre) R = B0 ++ NL :: post)
    by (subst R; by apply drop_app_length').
  assert (Htake : take (length pre) R = pre)
    by (subst R; by apply take_app_length').
  rewrite Hdrop, HsE, slice_0_nat, Htake by lia.
  replace (Z.of_nat (length pre + (length B0 - length BLOCK_END_UNIX))
           + Z.of_nat (length BLOCK_END_UNIX))
    with (Z.of_nat (length pre + length B0)) by lia.
  rewrite sliceFrom_nat.
  assert (Hdrop2 : drop (length pre + length B0) R = NL :: post).
  { subst R. rewrite app_assoc. apply drop_app_length'. by rewrite length_app. }
  rewrite Hdrop2. change (trimStart (NL :: post)) with (trimStart post).
  unfold keptTail, trim. destruct (trimEnd (trimStart post)) as [|c u] eqn:E.
  - rewrite (app_assoc _ [NL; NL]), <- (app_assoc B1 [NL]).
    rewrite (trimEnd_solid_ws B1 _ ([NL] ++ [NL] ++ trimStart post))
      by (done || by simpl; rewrite E).
    rewrite <- !app_assoc. reflexivity.
  - destruct (trimEnd_split (trimStart post)) as (w & Hw & Hww).
    rewrite Hw at 1. rewrite E.
    assert (Hu : solid (c :: u)).
    { rewrite <- E. split; [apply trimEnd_idem|by rewrite E]. }
    rewrite (app_assoc _ [NL; NL]), (app_assoc _ (B1 ++ [NL])), (app_assoc _ [NL]).
    rewrite (trimEnd_solid_ws (c :: u) _ w) by done.
    rewrite <- !app_assoc. reflexivity.
Qed.

(** The layout of the result of [upsertBlock], with the text around the
    block fixed by the content alone. *)
Lemma upsertBlock_layout C sh :
  (includes C BLOCK_START_UNIX = true -> includes C BLOCK_END_UNIX = true) ->
  exists X T,
    trimEnd X = X /\ search X BLOCK_START_UNIX = None /\ tailShape T /\
    forall B0, solid B0 ->
      upsertBlock C (B0 ++ [NL]) sh = X ++ NL :: NL :: B0 ++ NL :: T.
Proof.
  intros Hcond. destruct (includes C BLOCK_START_UNIX) eqn:HS.
  - specialize (Hcond eq_refl). pose proof HS as HS'.
    rewrite includes_search in HS'.
    destruct (search C BLOCK_START_UNIX) as [s0|] eqn:Hs0; [|done].
    pose proof (search_bound _ _ _ Hs0) as Hb.
    set (A := trimStart (sliceFrom C (indexOf C BLOCK_END_UNIX (Z.of_nat s0)
                                      + Z.of_nat (length BLOCK_END_UNIX)))).
    assert (HA : trimStart A = A) by apply trimStart_idem.
    exists (trimEnd (take s0 C)),
           (match trimEnd A with [] => [] | u => NL :: u ++ [NL] end).
    split; [apply trimEnd_idem|]. split.
    { destruct (trimEnd_split (take s0 C)) as (w & Hw & _).
      apply (search_app_none _ w). rewrite <- Hw. by apply search_take_first. }
    split.
    { destruct (trimEnd A) as [|y u] eqn:HtA; [by left|]. right.
      exists (y :: u). split; [done|]. rewrite <- HtA. split.
      - split; [apply trimEnd_idem|by rewrite HtA].
      - by apply trimStart_trimEnd. }
    intros B0 HB. unfold upsertBlock. rewrite getBlockMarkers_all, HS, Hcond.
    cbn [andb]. rewrite indexOf_0, Hs0, slice_0_nat by lia. fold A.
    destruct (trimEnd A) as [|y u] eqn:HtA.
    + rewrite (app_assoc _ [NL; NL]), <- (app_assoc B0 [NL]).
      rewrite (trimEnd_solid_ws B0 _ ([NL] ++ [NL] ++ A)) by (done || by simpl; rewrite HtA).
      rewrite <- !app_assoc. reflexivity.
    + destruct (trimEnd_split A) as (w & Hw & Hww).
      rewrite Hw at 1. rewrite HtA.
      assert (Hu : solid (y :: u)).
      { rewrite <- HtA. split; [apply trimEnd_idem|by rewrite HtA]. }
      rewrite (app_assoc _ [NL; NL]), (app_assoc _ (B0 ++ [NL])), (app_assoc _ [NL]).
      rewrite (trimEnd_solid_ws (y :: u) _ w) by done.
      rewrite <- !app_assoc. reflexivity.
  - exists (trimEnd C), []. split; [apply trimEnd_idem|]. split.
    { rewrite includes_search in HS.
      destruct (search C BLOCK_START_UNIX) eqn:Hs; [done|].
      destruct (trimEnd_split C) as (w & Hw & _).
      apply (search_app_none _ w). by rewrite <- Hw. }
    split; [by left|]. intros B0 HB.
    by rewrite upsertBlock_append by (done || by rewrite HS).
Qed.

Lemma keptTail_of_tail T : tailShape T -> keptTail T = T.
Proof.
  intros [-> | (u & -> & [Hu Hne] & Htu)]; [done|].
  unfold keptTail, trim. change (trimStart (NL :: u ++ [NL])) with (trimStart (u ++ [NL])).
  destruct u as [|h t]; [done|].
  pose proof (trimStart_fixed_head h t Htu) as Hh.
  change ((h :: t) ++ [NL]) with (h :: (t ++ [NL])).
  rewrite trimStart_head by done.
  change (h :: t ++ [NL]) with ([] ++ (h :: t) ++ [NL]).
  rewrite (trimEnd_solid_ws (h :: t) [] [NL]) by done. done.
Qed.

End InPlace.

(** X7: replacement in place. In a profile that holds a rendered block
    (of a key without end marker) after a text without start marker, the
    upsert of a new block puts the new block where the old one was: the
    text before is kept up to its trailing white space, the text after is
    kept trimmed, after one blank line, and the old block is gone. *)
Theorem upsertBlock_replaces_block
    (pre post oldKey newKey : jsstring) (oldShell newShell shell : ShellType) :
  includes pre BLOCK_START_UNIX = false ->
  includes oldKey BLOCK_END_UNIX = false ->
  upsertBlock (pre ++ renderBlock oldKey oldShell ++ post)
              (renderBlock newKey newShell) shell
  = trimEnd pre ++ [NL; NL] ++ renderBlock newKey newShell
      ++ match trim post with
         | [] => []
         | rest => [NL] ++ rest ++ [NL]
         end.
Proof.
  intros Hpre Hold. rewrite includes_search in Hpre, Hold.
  destruct (search pre BLOCK_START_UNIX) eqn:Hp; [done|].
  destruct (search oldKey BLOCK_END_UNIX) eqn:Hk; [done|].
  rewrite !renderBlock_body, <- !app_assoc.
  change ([NL] ++ post) with (NL :: post).
  rewrite upsertBlock_in_place;
    [|done|by apply blockBody_marked|apply blockBody_solid].
  unfold keptTail. by destruct (trim post).
Qed.

Lemma upsertBlock_replaces_block_witness :
  upsertBlock ((lit "PATH=/bin  " ++ [NL]) ++ renderBlock (lit "old-key") zsh
                 ++ ([NL] ++ lit "  alias ll=ls  " ++ [NL; NL]))
              (renderBlock (lit "new-key") zsh) zsh
  = lit "PATH=/bin" ++ [NL; NL] ++ renderBlock (lit "new-key") zsh
      ++ [NL] ++ lit "alias ll=ls" ++ [NL].
Proof.
  etrans; [apply upsertBlock_replaces_block; by vm_compute|by vm_compute].
Defined.

(** X8: key rotation. On a content that holds the end marker whenever it
    holds the start marker, upserting the block of one key (without end
    marker) and then the block of another key gives what upserting the
    second block alone gives: the first block leaves no trace. *)
Theorem upsertBlock_last_key_wins
    (content oldKey newKey : jsstring) (oldShell newShell shell : ShellType) :
  (includes content BLOCK_START_UNIX = true ->
   includes content BLOCK_END_UNIX = true) ->
  includes oldKey BLOCK_END_UNIX = false ->
  upsertBlock (upsertBlock content (renderBlock oldKey oldShell) shell)
              (renderBlock newKey newShell) shell
  = upsertBlock content (renderBlock newKey newShell) shell.
Proof.
  intros Hcontent Hold. rewrite includes_search in Hold.
  destruct (search oldKey BLOCK_END_UNIX) eqn:Hk; [done|].
  destruct (upsertBlock_layout content shell Hcontent) as (X & T & HX & HXs & HT & Hlay).
  rewrite !renderBlock_body.
  rewrite (Hlay (blockBody oldKey oldShell)), (Hlay (blockBody newKey newShell))
    by apply blockBody_solid.
  replace (X ++ NL :: NL :: blockBody oldKey oldShell ++ NL :: T)
    with ((X ++ [NL; NL]) ++ blockBody oldKey oldShell ++ NL :: T)
    by by rewrite <- app_assoc.
  rewrite upsertBlock_in_place;
    [|rewrite (search_sep X [NL] NL), HXs by (done || apply NL_notin_START);
      by vm_compute
     |by apply blockBody_marked|apply blockBody_solid].
  rewrite (trimEnd_app_drop X [NL; NL]) by reflexivity.
  by rewrite HX, keptTail_of_tail.
Qed.

Lemma upsertBlock_last_key_wins_witness :
  upsertBlock (upsertBlock (lit "PATH=/bin") (renderBlock (lit "old-key") zsh) zsh)
              (renderBlock (lit "new-key") powershell) zsh
  = upsertBlock (lit "PATH=/bin") (renderBlock (lit "new-key") powershell) zsh.
Proof.
  apply upsertBlock_last_key_wins; [by vm_compute|by vm_compute].
Defined.

(** X9: the append path keeps the profile. When the content lacks the
    start marker or lacks the end marker, the result is the content
    without its trailing white space, one blank line, and the block. *)
Theorem upsertBlock_appends
    (content k : jsstring) (blockShell shell : ShellType) :
  includes content BLOCK_START_UNIX = false \/
  includes content BLOCK_END_UNIX = false ->
  upsertBlock content (renderBlock k blockShell) shell
  = trimEnd content ++ [NL; NL] ++ renderBlock k blockShell.
Proof.
  intros H. rewrite renderBlock_body.
  rewrite upsertBlock_append; [done| |apply blockBody_solid].
  destruct H as [-> | ->]; [done|apply andb_false_r].
Qed.

Lemma upsertBlock_appends_witness :
  upsertBlock (lit "PATH=/bin" ++ [NL; NL; NL]) (renderBlock (lit "abc123") bash) bash
  = lit "PATH=/bin" ++ [NL; NL] ++ renderBlock (lit "abc123") bash.
Proof.
  etrans; [apply upsertBlock_appends; left; by vm_compute|by vm_compute].
Defined.

(** ** The orchestrator: what a run does *)

Section Runs.

Context {P : NodePath}.
Variable readJson : FileSystem -> jsstring -> outcome (option SettingsFile).

Implicit Types (proc : Process) (fs : FileSystem) (opts : Options).
Implicit Types (k p profile existing e : jsstring) (sh : ShellType).
Implicit Types (out : outcome ShellEnvResult).

Lemma resolveApiKey_normal fs opts k :
  resolveApiKey readJson fs opts = Return (Some k) ->
  k <> [] /\ k <> PLACEHOLDER_KEY /\ trim k = k /\
  normalizeApiKey (Some k) = Some k.
Proof.
  unfold resolveApiKey, readSettingsApiKey.
  destruct (normalizeApiKey (apiKey opts)) as [k0|] eqn:E.
  - intros [= <-]. by apply normalizeApiKey_normal in E.
  - destruct (existsSync fs _); [|done]. cbn [negb].
    destruct (readJson fs _) as [settings|e]; [|done].
    destruct (settingsKey settings) as [[key|]|]; try done.
    intros [= H]. by apply (normalizeApiKey_normal (Some key)).
Qed.

Lemma afterMkdir_dirs fs profile : dirs fs ⊆ dirs (afterMkdir fs profile).
Proof.
  unfold afterMkdir, mkdirSync. destruct (mkdirFault fs _); [done|].
  case_bool_decide; [done|]. cbn [snd dirs]. set_solver.
Qed.

(** The outcomes of the steps that follow the choice of the profile. *)
Lemma provision_outcome fs k p sh out fs' :
  provision fs k p sh = (out, fs') ->
  let fs1 := afterMkdir fs p in
  (fs' = fs1 /\
   ((exists e, out = Throw e) \/
    out = Return (mkResult skipped (Some MSG_PROFILE) (Some p)) \/
    out = Return (mkResult skipped (Some MSG_UP_TO_DATE) (Some p)))) \/
  (exists existing,
     readProfile fs1 p = Return existing /\
     hasZaiKeyInProfile existing sh = false /\
     out = Return (mkResult updated
                     (Some (if isPowerShell sh then lit "Run: . $PROFILE"
                            else lit "Run: source " ++ p)) (Some p)) /\
     files fs' = <[p := upsertBlock existing (renderBlock k sh) sh]> (files fs) /\
     dirs fs' = dirs fs1 /\ readFault fs' = readFault fs).
Proof.
  unfold provision. cbn zeta.
  destruct (readProfile _ p) as [existing|e] eqn:Hread;
    [|intros [= <- <-]; left; eauto].
  destruct (hasZaiKeyInProfile existing sh) eqn:Hscan;
    [intros [= <- <-]; left; eauto|].
  case_bool_decide; [intros [= <- <-]; left; eauto|].
  unfold writeFileSync. destruct (writeFault _ p);
    [intros [= <- <-]; left; eauto|].
  case_bool_decide; intros [= <- <-]; [left; eauto|].
  right. exists existing. cbn [files dirs readFault].
  by rewrite afterMkdir_files, afterMkdir_readFault.
Qed.

(** The outcomes of a run: it stops before the file system is touched,
    or it goes on to the profile. *)
Lemma ensure_outcome proc fs opts out fs' :
  ensureZaiShellEnv readJson proc fs opts = (out, fs') ->
  (fs' = fs /\
   ((exists e, out = Throw e) \/
    out = Return (mkResult skipped (Some MSG_MISSING) None) \/
    out = Return (mkResult skipped (Some MSG_ENV) None) \/
    out = Return (mkResult failed
                    (Some (if isWindows proc then MSG_UNSUPPORTED_WINDOWS
                           else MSG_UNSUPPORTED)) None))) \/
  (exists k p,
     reachesProvision readJson proc fs opts k p /\
     provision fs k p (chosenShell proc opts) = (out, fs')).
Proof.
  unfold ensureZaiShellEnv.
  destruct (resolveApiKey readJson fs opts) as [[k|]|e] eqn:Hk;
    [|intros [= <- <-]; left; eauto 6..].
  destruct (normalizeApiKey (env_Z_AI_API_KEY proc)) eqn:Henv;
    [intros [= <- <-]; left; eauto 6|].
  destruct (chosenProfile proc fs opts) as [p|] eqn:Hp;
    [|intros [= <- <-]; left; eauto 6].
  destruct p as [|c p]; [intros [= <- <-]; left; eauto 6|].
  cbn [truthy negb]. intros Hprov. right. by exists k, (c :: p).
Qed.

Lemma provision_already_set fs k p sh existing :
  files fs !! p = Some existing -> readFault fs p = None ->
  hasZaiKeyInProfile existing sh = true ->
  provision fs k p sh
  = (Return (mkResult skipped (Some MSG_PROFILE) (Some p)), afterMkdir fs p).
Proof.
  intros Hfile Hfault Hscan.
  unfold provision, readProfile, existsSync, readFileSync.
  rewrite afterMkdir_files, afterMkdir_readFault, Hfile, Hfault.
  rewrite bool_decide_eq_true_2 by by eexists.
  cbn [orb]. by rewrite Hscan.
Qed.

Lemma ancestors_self (n : nat) (d : jsstring) : d ∈ ancestors n d.
Proof. destruct n; simpl; [set_solver|]. case_bool_decide; set_solver. Qed.

(** X10: the frame of a run. Whatever the outcome, no directory
    disappears, no file disappears, and the only file whose content can
    differ after the run is the profile that an [updated] result names. *)
Theorem ensureZaiShellEnv_frame proc fs opts out fs' :
  ensureZaiShellEnv readJson proc fs opts = (out, fs') ->
  dirs fs ⊆ dirs fs' /\
  (forall q c, files fs !! q = Some c -> is_Some (files fs' !! q)) /\
  (forall q, files fs' !! q <> files fs !! q ->
     exists r, out = Return r /\ status r = updated /\ path r = Some q).
Proof.
  intros Hrun.
  destruct (ensure_outcome _ _ _ _ _ Hrun) as [[-> _] | (k & p & _ & Hprov)];
    [by eauto|].
  destruct (provision_outcome _ _ _ _ _ _ Hprov)
    as [[-> _] | (existing & _ & _ & -> & Hfiles & Hdirs & _)].
  - rewrite afterMkdir_files. split; [apply afterMkdir_dirs|]. by eauto.
  - rewrite Hfiles, Hdirs. split; [apply afterMkdir_dirs|]. split.
    + intros q c Hq. destruct (decide (p = q)) as [->|Hne].
      * rewrite lookup_insert_eq. by eexists.
      * rewrite lookup_insert_ne by done. by eexists.
    + intros q Hq. destruct (decide (p = q)) as [->|Hne]; [by eauto|].
      by rewrite lookup_insert_ne in Hq.
Qed.

(** X11: what an [updated] run has written. The profile named by the
    result holds the upsert, into the content read, of the block rendered
    for the dialect of the run from a key that is not empty, is not the
    placeholder and is trimmed; the assignment line of that key is in it. *)
Theorem ensureZaiShellEnv_writes_normal_key proc fs opts r fs' :
  ensureZaiShellEnv readJson proc fs opts = (Return r, fs') ->
  status r = updated ->
  exists p k existing,
    path r = Some p /\
    readProfile (afterMkdir fs p) p = Return existing /\
    let shell := chosenShell proc opts in
    let written := upsertBlock existing (renderBlock k shell) shell in
    files fs' !! p = Some written /\
    includes written (assignmentLine k shell) = true /\
    k <> [] /\ k <> PLACEHOLDER_KEY /\ trim k = k.
Proof.
  intros Hrun Hst.
  destruct (ensure_outcome _ _ _ _ _ Hrun) as [[_ Hout] | (k & p & Hreach & Hprov)].
  { destruct Hout as [[e ?] | [? | [? | ?]]]; simplify_eq; done. }
  destruct (provision_outcome _ _ _ _ _ _ Hprov)
    as [[_ Hout] | (existing & Hread & _ & Hout & Hfiles & _)].
  { destruct Hout as [[e ?] | [? | ?]]; simplify_eq; done. }
  injection Hout as ->. exists p, k, existing. cbn [path].
  destruct Hreach as (Hk & _). apply resolveApiKey_normal in Hk as (? & ? & ? & _).
  repeat split; try done.
  - by rewrite Hfiles, lookup_insert_eq.
  - apply upsertBlock_includes_line.
Qed.

(** X12: the shape of a result. Every result carries a message; an
    [updated] result names the profile; a [failed] result names none; and
    a run whose result names no profile has left the file system,
    directories included, as it was. *)
Theorem ensureZaiShellEnv_result_shape proc fs opts r fs' :
  ensureZaiShellEnv readJson proc fs opts = (Return r, fs') ->
  is_Some (message r) /\
  (status r = updated -> is_Some (path r)) /\
  (status r = failed -> path r = None) /\
  (path r = None -> fs' = fs).
Proof.
  intros Hrun.
  destruct (ensure_outcome _ _ _ _ _ Hrun) as [[-> Hout] | (k & p & _ & Hprov)].
  { destruct Hout as [[e ?] | [? | [? | ?]]]; simplify_eq; cbn; by eauto. }
  destruct (provision_outcome _ _ _ _ _ _ Hprov)
    as [[_ Hout] | (existing & _ & _ & Hout & _)].
  { destruct Hout as [[e ?] | [? | ?]]; simplify_eq; cbn; by eauto. }
  simplify_eq. cbn. by eauto.
Qed.

(** X13: when a run answers [failed]. A returned result is [failed]
    exactly when no profile is chosen (no explicit path and no profile
    resolved for the shell) or the chosen path is the empty string; the
    message then depends on the platform alone. *)
Theorem ensureZaiShellEnv_failed_iff proc fs opts r fs' :
  ensureZaiShellEnv readJson proc fs opts = (Return r, fs') ->
  (status r = failed <->
   (exists k, resolveApiKey readJson fs opts = Return (Some k)) /\
   normalizeApiKey (env_Z_AI_API_KEY proc) = None /\
   (chosenProfile proc fs opts = None \/ chosenProfile proc fs opts = Some [])) /\
  (status r = failed ->
   message r = Some (if isWindows proc then MSG_UNSUPPORTED_WINDOWS
                     else MSG_UNSUPPORTED)).
Proof.
  unfold ensureZaiShellEnv.
  destruct (resolveApiKey readJson fs opts) as [[k|]|e] eqn:Hk; [| |done].
  2: { intros [= <- _]. cbn. split; [|done]. split; [done|]. by intros [[? ?] _]. }
  destruct (normalizeApiKey (env_Z_AI_API_KEY proc)) eqn:Henv.
  { intros [= <- _]. cbn. split; [|done]. split; [done|]. by intros (_ & ? & _). }
  destruct (chosenProfile proc fs opts) as [p|] eqn:Hp.
  2: { intros [= <- _]. cbn. split; [|done]. split; [|done]. by eauto. }
  destruct p as [|c p].
  { intros [= <- _]. cbn. split; [|done]. split; [|done]. by eauto. }
  cbn [truthy negb]. intros Hprov.
  assert (Hnf : status r <> failed).
  { destruct (provision_outcome _ _ _ _ _ _ Hprov)
      as [[_ Hout] | (existing & _ & _ & Hout & _)].
    - destruct Hout as [[e ?] | [? | ?]]; by simplify_eq.
    - by simplify_eq. }
  split; [|done]. split; [done|]. intros (_ & _ & [? | ?]); done.
Qed.

(** X14: a usable explicit key takes precedence: the settings are not
    consulted, so the run is the same whatever the settings reader does,
    even if it throws. *)
Theorem ensureZaiShellEnv_explicit_key_first proc fs opts k
    (otherReader : FileSystem -> jsstring -> outcome (option SettingsFile)) :
  normalizeApiKey (apiKey opts) = Some k ->
  resolveApiKey readJson fs opts = Return (Some k) /\
  ensureZaiShellEnv readJson proc fs opts
  = ensureZaiShellEnv otherReader proc fs opts.
Proof.
  intros Hk. unfold ensureZaiShellEnv, resolveApiKey. by rewrite Hk.
Qed.

(** X15: a failure of the directory creation is tolerated. When
    [mkdirSync] throws, the run goes on with the file system as it was,
    and writes the profile if the write itself succeeds. *)
Theorem ensureZaiShellEnv_mkdir_failure_tolerated proc fs opts k p existing e :
  reachesProvision readJson proc fs opts k p ->
  mkdirFault fs (dirname p) = Some e ->
  readProfile fs p = Return existing ->
  let shell := chosenShell proc opts in
  let next := upsertBlock existing (renderBlock k shell) shell in
  hasZaiKeyInProfile existing shell = false ->
  next <> existing ->
  writeFault fs p = None -> p ∉ dirs fs ->
  exists r fs',
    ensureZaiShellEnv readJson proc fs opts = (Return r, fs') /\
    status r = updated /\ path r = Some p /\
    files fs' = <[p := next]> (files fs) /\ dirs fs' = dirs fs.
Proof.
  intros Hreach Hmk Hread shell next Hscan Hnext Hw Hdir.
  assert (Hfs : afterMkdir fs p = fs).
  { unfold afterMkdir, mkdirSync. by rewrite Hmk. }
  rewrite (ensure_provision _ _ _ _ _ _ Hreach). fold shell.
  destruct (provision_updated fs k p shell existing) as (fs2 & Hprov & Hfiles);
    rewrite ?Hfs; try done.
  destruct (provision_outcome _ _ _ _ _ _ Hprov)
    as [[_ Hout] | (_ & _ & _ & _ & _ & Hdirs & _)].
  { destruct Hout as [[? ?] | [? | ?]]; by simplify_eq. }
  rewrite Hfs in Hdirs. by eauto 10.
Qed.

(** X16: running twice. With an explicit profile path and a usable
    explicit key without newline and without backslash, a run that
    answers [updated] is followed, on the file system it leaves, by a run
    that answers [skipped] (already set in shell profile) and changes no
    file. *)
Theorem ensureZaiShellEnv_second_run_skips proc fs opts p k r fs1 :
  profilePath opts = Some p ->
  normalizeApiKey (apiKey opts) = Some k ->
  NL ∉ k -> BACKSLASH ∉ k ->
  readFault fs p = None ->
  ensureZaiShellEnv readJson proc fs opts = (Return r, fs1) ->
  status r = updated ->
  exists fs2,
    ensureZaiShellEnv readJson proc fs1 opts
    = (Return (mkResult skipped (Some MSG_PROFILE) (Some p)), fs2) /\
    files fs2 = files fs1.
Proof.
  intros Hp Hk Hnl Hbs Hrf Hrun Hst.
  destruct (ensure_outcome _ _ _ _ _ Hrun) as [[_ Hout] | (k0 & p0 & Hreach & Hprov)].
  { destruct Hout as [[? ?] | [? | [? | ?]]]; by simplify_eq. }
  destruct Hreach as (Hk0 & Henv & Hp0 & Hne).
  unfold resolveApiKey in Hk0. rewrite Hk in Hk0. injection Hk0 as <-.
  unfold chosenProfile in Hp0. rewrite Hp in Hp0. injection Hp0 as <-.
  destruct (provision_outcome _ _ _ _ _ _ Hprov)
    as [[_ Hout] | (existing & _ & _ & _ & Hfiles & _ & Hrf1)].
  { destruct Hout as [[? ?] | [? | ?]]; by simplify_eq. }
  assert (Hreach1 : reachesProvision readJson proc fs1 opts k p).
  { repeat split; [|done| |done].
    - unfold resolveApiKey. by rewrite Hk.
    - unfold chosenProfile. by rewrite Hp. }
  rewrite (ensure_provision _ _ _ _ _ _ Hreach1).
  exists (afterMkdir fs1 p). split; [|apply afterMkdir_files].
  apply (provision_already_set fs1 k p _
           (upsertBlock existing (renderBlock k (chosenShell proc opts))
              (chosenShell proc opts))).
  - by rewrite Hfiles, lookup_insert_eq.
  - by rewrite Hrf1.
  - apply scan_after_upsert; [|done|done]. by apply (normalizeApiKey_normal _ _ Hk).
Qed.

(** X17: the directory of the profile. Once a run goes on to the profile
    and the creation of its directory is not refused, that directory
    exists after the run, whatever the outcome is. *)
Theorem ensureZaiShellEnv_creates_profile_dir proc fs opts k p out fs' :
  reachesProvision readJson proc fs opts k p ->
  mkdirFault fs (dirname p) = None ->
  files fs !! dirname p = None ->
  ensureZaiShellEnv readJson proc fs opts = (out, fs') ->
  dirname p ∈ dirs fs'.
Proof.
  intros Hreach Hmk Hfile. rewrite (ensure_provision _ _ _ _ _ _ Hreach).
  intros Hprov.
  assert (Hd : dirname p ∈ dirs (afterMkdir fs p)).
  { unfold afterMkdir, mkdirSync. rewrite Hmk.
    rewrite bool_decide_eq_false_2 by (rewrite Hfile; by intros [? ?]).
    cbn [snd dirs]. apply elem_of_union_l, elem_of_list_to_set, ancestors_self. }
  destruct (provision_outcome _ _ _ _ _ _ Hprov)
    as [[-> _] | (_ & _ & _ & _ & _ & -> & _)]; done.
Qed.

End Runs.

(** ** Dialect detection *)

Section Detection.

Context {P : NodePath}.

(** X18: detection from the environment, by platform. On Windows, zsh is
    never detected, and a non-empty [PSModulePath] gives a PowerShell
    dialect whatever [SHELL] holds; off Windows, no PowerShell dialect is
    ever detected, and an unset or empty [SHELL] is looked up as the empty
    path. *)
Theorem detectShell_by_platform (proc : Process) :
  (isWindows proc = true ->
   detectShell proc <> zsh /\
   (truthyOpt (env_PSModulePath proc) = true ->
    isPowerShell (detectShell proc) = true)) /\
  (isWindows proc = false ->
   isPowerShell (detectShell proc) = false /\
   (truthyOpt (env_SHELL proc) = false ->
    detectShell proc = unknown)).
Proof.
  unfold detectShell. split; intros ->.
  - split.
    + destruct (truthyOpt (env_PSModulePath proc)), (truthyOpt (env_PWSH proc));
        try done.
      all: destruct (env_SHELL proc) as [s|]; [|done].
      all: by destruct (truthy s && includes s (lit "bash")).
    + intros ->. by destruct (truthyOpt (env_PWSH proc)).
  - split.
    + cbn zeta.
      destruct (bool_decide (basename _ = lit "zsh")); [done|].
      by destruct (bool_decide (basename _ = lit "bash")).
    + intros Hsh.
      assert (Hs : match env_SHELL proc with
                   | Some sh => if truthy sh then sh else []
                   | None => []
                   end = []).
      { destruct (env_SHELL proc) as [s|]; [|done]. simpl in Hsh. by rewrite Hsh. }
      rewrite Hs, basename_empty. by rewrite !bool_decide_eq_false_2.
Qed.

(** X19: a profile is resolved exactly for the known shells:
    [resolveShellProfile] answers null if and only if [detectShell]
    answers unknown, whatever the file system holds. *)
Theorem resolveShellProfile_none_iff (proc : Process) (fs : FileSystem) :
  resolveShellProfile proc fs = None <-> detectShell proc = unknown.
Proof.
  unfold resolveShellProfile.
  destruct (detectShell proc) eqn:E; cbn [isPowerShell].
  all: repeat case_bool_decide; try done.
  all: repeat match goal with |- context [match ?x with _ => _ end] => destruct x end.
  all: by split.
Qed.

End Detection.

(** Windows PowerShell started from a session whose [SHELL] names zsh. *)
Lemma detectShell_by_platform_witness :
  let proc := mkProcess true (lit "C:\Users\u") (Some (lit "/usr/bin/zsh"))
                (Some (lit "C:\Modules")) None None None in
  detectShell proc <> zsh /\ isPowerShell (detectShell proc) = true.
Proof.
  intros proc. destruct (detectShell_by_platform proc) as [Hwin _].
  destruct (Hwin eq_refl) as [Hzsh Hps]. split; [exact Hzsh|]. by apply Hps.
Defined.

Section PosixPaths.

Implicit Types (d n s : jsstring) (f : N -> bool).

Lemma takeWhile_app_stop f (a b : jsstring) x :
  Forall (fun c => f c = true) a -> f x = false ->
  Posix.takeWhile f (a ++ x :: b) = a.
Proof.
  induction 1 as [|c a Hc _ IH]; intros Hx; simpl; [by rewrite Hx|].
  by rewrite Hc, IH.
Qed.

Lemma dropWhile_head f (c : N) s : f c = false -> Posix.dropWhile f (c :: s) = c :: s.
Proof. intros H. simpl. by rewrite H. Qed.

Lemma takeWhile_all f s : Forall (fun c => f c = true) s -> Posix.takeWhile f s = s.
Proof. induction 1 as [|c a Hc _ IH]; simpl; [done|]. by rewrite Hc, IH. Qed.

Lemma notSlash_rev n :
  Posix.SLASH ∉ n -> Forall (fun c => Posix.notSlash c = true) (rev n).
Proof.
  intros Hn. apply Forall_forall. intros c Hc.
  apply list_elem_of_In, in_rev, list_elem_of_In in Hc.
  unfold Posix.notSlash, Posix.isSlash. destruct (N.eqb_spec c Posix.SLASH); [|done].
  by subst.
Qed.

Lemma posix_basename_last d n :
  n <> [] -> Posix.SLASH ∉ n -> Posix.basename (d ++ Posix.SLASH :: n) = n.
Proof.
  intros Hne Hn. unfold Posix.basename.
  rewrite rev_app_distr. simpl rev. rewrite <- app_assoc. simpl app.
  pose proof (notSlash_rev n Hn) as Hall.
  destruct (rev n) as [|h t] eqn:Hr.
  { apply (f_equal (@rev N)) in Hr. rewrite rev_involutive in Hr. by subst. }
  change ((h :: t) ++ Posix.SLASH :: rev d) with (h :: (t ++ Posix.SLASH :: rev d)).
  rewrite dropWhile_head.
  - change (h :: t ++ Posix.SLASH :: rev d) with ((h :: t) ++ Posix.SLASH :: rev d).
    rewrite takeWhile_app_stop by done.
    by rewrite <- Hr, rev_involutive.
  - inversion Hall as [|? ? Hh _]; subst.
    unfold Posix.notSlash in Hh. by destruct (Posix.isSlash h).
Qed.

Lemma posix_basename_plain n :
  n <> [] -> Posix.SLASH ∉ n -> Posix.basename n = n.
Proof.
  intros Hne Hn. unfold Posix.basename.
  pose proof (notSlash_rev n Hn) as Hall.
  destruct (rev n) as [|h t] eqn:Hr.
  { apply (f_equal (@rev N)) in Hr. rewrite rev_involutive in Hr. by subst. }
  rewrite dropWhile_head.
  - rewrite takeWhile_all by done. by rewrite <- Hr, rev_involutive.
  - inversion Hall as [|? ? Hh _]; subst.
    unfold Posix.notSlash in Hh. by destruct (Posix.isSlash h).
Qed.

End PosixPaths.

(** X20: on the POSIX host, the dialect of a profile path is that of its
    last segment: the directory part plays no role, so every [.zshrc] is
    zsh, every [.bashrc] and [.bash_profile] is bash and every [*.ps1] is
    PowerShell, wherever the file lies. *)
Theorem detectShellFromPath_last_segment (dir name : jsstring) :
  name <> [] -> Posix.SLASH ∉ name ->
  @detectShellFromPath posix (dir ++ [Posix.SLASH] ++ name)
  = @detectShellFromPath posix name.
Proof.
  intros Hne Hn. unfold detectShellFromPath. cbn [basename posix app].
  by rewrite posix_basename_last, posix_basename_plain.
Qed.

Lemma detectShellFromPath_last_segment_witness :
  @detectShellFromPath posix (lit "/home/u/My Documents/" ++ [Posix.SLASH] ++ lit ".bash_profile")
  = bash.
Proof.
  rewrite detectShellFromPath_last_segment; [by vm_compute|done|by_evaluation].
Defined.

(** ** Runs on the POSIX host *)

Lemma run_pairing {A B} (x : A * B) (a : A) : fst x = a -> x = (a, snd x).
Proof. intros <-. by destruct x. Qed.

(** A zsh profile with one line, a settings file, and an explicit key
    with surrounding blanks. *)
Definition sampleFS : FileSystem :=
  plainFS [(lit "/tmp/t/config/settings.json", lit "{}");
           (lit "/tmp/t/.zshrc", lit "PATH=/bin" ++ [NL])].

Definition sampleOpts : Options :=
  mkOptions (Some (lit " abc123 ")) (lit "/tmp/t/config") (Some (lit "/tmp/t/.zshrc")).

Definition sampleRun : outcome ShellEnvResult * FileSystem :=
  ensureZaiShellEnv (readJsonWith (lit "other-key")) zshProcess sampleFS sampleOpts.

Definition sampleResult : ShellEnvResult :=
  mkResult updated (Some (lit "Run: source /tmp/t/.zshrc")) (Some (lit "/tmp/t/.zshrc")).

Lemma sampleRun_updated : sampleRun = (Return sampleResult, snd sampleRun).
Proof. apply run_pairing. by vm_compute. Qed.

Lemma ensureZaiShellEnv_frame_witness :
  dirs sampleFS ⊆ dirs (snd sampleRun) /\
  is_Some (files (snd sampleRun) !! lit "/tmp/t/config/settings.json").
Proof.
  destruct (ensureZaiShellEnv_frame _ _ _ _ _ _ sampleRun_updated) as (H1 & H2 & _).
  split; [exact H1|]. apply (H2 _ (lit "{}")). by vm_compute.
Defined.

Lemma ensureZaiShellEnv_writes_normal_key_witness :
  exists p k existing,
    path sampleResult = Some p /\
    readProfile (afterMkdir sampleFS p) p = Return existing /\
    let shell := chosenShell zshProcess sampleOpts in
    let written := upsertBlock existing (renderBlock k shell) shell in
    files (snd sampleRun) !! p = Some written /\
    includes written (assignmentLine k shell) = true /\
    k <> [] /\ k <> PLACEHOLDER_KEY /\ trim k = k.
Proof.
  apply (ensureZaiShellEnv_writes_normal_key _ _ _ _ _ _ sampleRun_updated eq_refl).
Defined.

Lemma ensureZaiShellEnv_result_shape_witness :
  is_Some (message sampleResult) /\
  (status sampleResult = updated -> is_Some (path sampleResult)) /\
  (status sampleResult = failed -> path sampleResult = None) /\
  (path sampleResult = None -> snd sampleRun = sampleFS).
Proof.
  apply (ensureZaiShellEnv_result_shape _ _ _ _ _ _ sampleRun_updated).
Defined.

(** A process whose shell is not a known one, and no explicit profile. *)
Definition fishProcess : Process :=
  mkProcess false (lit "/home/u") (Some (lit "/usr/bin/fish")) None None None None.

Definition noPathOpts : Options :=
  mkOptions (Some (lit "abc123")) (lit "/tmp/t/config") None.

Lemma ensureZaiShellEnv_failed_iff_witness :
  let run := ensureZaiShellEnv (readJsonWith (lit "other-key")) fishProcess
               sampleFS noPathOpts in
  let r := mkResult failed (Some MSG_UNSUPPORTED) None in
  fst run = Return r /\
  message r = Some (if isWindows fishProcess then MSG_UNSUPPORTED_WINDOWS
                    else MSG_UNSUPPORTED).
Proof.
  intros run r.
  assert (Hrun : fst run = Return r) by by vm_compute.
  split; [exact Hrun|].
  destruct (ensureZaiShellEnv_failed_iff _ _ _ _ _ _ (run_pairing run _ Hrun))
    as [_ Hmsg].
  by apply Hmsg.
Defined.

Lemma ensureZaiShellEnv_explicit_key_first_witness :
  ensureZaiShellEnv (readJsonWith (lit "other-key")) zshProcess sampleFS sampleOpts
  = ensureZaiShellEnv (fun _ _ => Throw (lit "Unexpected token")) zshProcess
      sampleFS sampleOpts.
Proof.
  apply (ensureZaiShellEnv_explicit_key_first _ _ _ _ (lit "abc123")).
  by vm_compute.
Defined.

(** The same file system, on which no directory can be created. *)
Definition noMkdirFS : FileSystem :=
  mkFS (files sampleFS) ∅ (fun _ => None) (fun _ => None)
       (fun _ => Some (lit "EACCES: permission denied")).

Lemma ensureZaiShellEnv_mkdir_failure_tolerated_witness :
  exists r fs',
    ensureZaiShellEnv (readJsonWith (lit "other-key")) zshProcess noMkdirFS sampleOpts
    = (Return r, fs') /\
    status r = updated /\ path r = Some (lit "/tmp/t/.zshrc") /\
    files fs'
    = <[lit "/tmp/t/.zshrc" :=
          upsertBlock (lit "PATH=/bin" ++ [NL])
            (renderBlock (lit "abc123") (chosenShell zshProcess sampleOpts))
            (chosenShell zshProcess sampleOpts)]>
        (files noMkdirFS) /\
    dirs fs' = dirs noMkdirFS.
Proof.
  apply (ensureZaiShellEnv_mkdir_failure_tolerated (readJsonWith (lit "other-key"))
           zshProcess noMkdirFS sampleOpts (lit "abc123") (lit "/tmp/t/.zshrc")
           (lit "PATH=/bin" ++ [NL]) (lit "EACCES: permission denied")).
  - repeat split; by vm_compute.
  - reflexivity.
  - by vm_compute.
  - by vm_compute.
  - by_evaluation.
  - reflexivity.
  - by_evaluation.
Defined.

Lemma ensureZaiShellEnv_second_run_skips_witness :
  exists fs2,
    ensureZaiShellEnv (readJsonWith (lit "other-key")) zshProcess (snd sampleRun)
      sampleOpts
    = (Return (mkResult skipped (Some MSG_PROFILE) (Some (lit "/tmp/t/.zshrc"))), fs2) /\
    files fs2 = files (snd sampleRun).
Proof.
  apply (ensureZaiShellEnv_second_run_skips (readJsonWith (lit "other-key"))
           zshProcess sampleFS sampleOpts (lit "/tmp/t/.zshrc") (lit "abc123")
           sampleResult (snd sampleRun)).
  - reflexivity.
  - by vm_compute.
  - by_evaluation.
  - by_evaluation.
  - reflexivity.
  - exact sampleRun_updated.
  - reflexivity.
Defined.

Lemma ensureZaiShellEnv_creates_profile_dir_witness :
  dirname (lit "/tmp/t/.zshrc") = lit "/tmp/t" /\
  dirname (lit "/tmp/t/.zshrc") ∈ dirs (snd sampleRun).
Proof.
  split; [by vm_compute|].
  apply (ensureZaiShellEnv_creates_profile_dir (readJsonWith (lit "other-key"))
           zshProcess sampleFS sampleOpts (lit "abc123") (lit "/tmp/t/.zshrc")
           (fst sampleRun) (snd sampleRun)).
  - repeat split; by vm_compute.
  - reflexivity.
  - by vm_compute.
  - apply surjective_pairing.
Defined.
